(** * Accounts reports: the per-dataset reporting pipeline of [Reports.tsx]

    A shallow embedding of the [AccountsReports] component: the derived
    [oldestInvoiceDays] field, the three filter pipelines, pagination,
    the CSV export and the component's state cells with their handlers
    and effects, followed by the properties proved about them.

    Numbers.  A [number] that arrives in an API response is a finite
    double, and JSON has no NaN: such fields are rationals ([Q]), on
    which [<], [<=] and [>=] of doubles are the rational order.  Rounding
    of [+] is not modelled.  The one number the component computes from a
    [Date] can be NaN and has its own type [JsNum]. *)

From Stdlib Require Import ZArith QArith Qround String Ascii List Bool Lia.
Import ListNotations.

Local Open Scope string_scope.
Local Open Scope Z_scope.

(** ** Dates and [computeDaysOld] *)

(** The time value of a [Date]: milliseconds since the epoch, or the NaN
    of an invalid date. *)
Inductive TimeValue : Type :=
| Ms (t : Z)
| InvalidDate.

(** A number that is an integer or NaN. *)
Inductive JsNum : Type :=
| JNum (z : Z)
| JNaN.

(** [a - b] on numbers. *)
Definition jsSub (a b : JsNum) : JsNum :=
  match a, b with
  | JNum x, JNum y => JNum (x - y)
  | _, _ => JNaN
  end.

(** [Math.floor(a / d)] for an integer [a] and a positive integer
    constant [d].  For [|a| < 2^53] the rounded quotient of the doubles
    never reaches the next integer, so the result is the floor of the
    exact quotient. *)
Definition jsFloorDiv (a : JsNum) (d : Z) : JsNum :=
  match a with
  | JNum x => JNum (x / d)
  | JNaN => JNaN
  end.

(** [Math.max(a, b)]: NaN as soon as one argument is NaN. *)
Definition Math_max (a b : JsNum) : JsNum :=
  match a, b with
  | JNum x, JNum y => JNum (Z.max x y)
  | _, _ => JNaN
  end.

(** [new Date(s).getTime()] as a number. *)
Definition getTime (d : TimeValue) : JsNum :=
  match d with
  | Ms t => JNum t
  | InvalidDate => JNaN
  end.

Definition msPerDay : Z := 1000 * 60 * 60 * 24.

Section DaysOld.

(** What [new Date(s)] makes of a string is the engine's business; the
    component is parametric in it. *)
Variable Date_parse : string -> TimeValue.

(** [computeDaysOld(isoDate)], run when the clock reads [now].  [!isoDate]
    holds of [null] and of the empty string. *)
Definition computeDaysOld (now : Z) (isoDate : option string) : JsNum :=
  match isoDate with
  | None => JNum 0
  | Some EmptyString => JNum 0
  | Some s =>
      let d := Date_parse s in
      let ms := jsSub (JNum now) (getTime d) in
      Math_max (JNum 0) (jsFloorDiv ms msPerDay)
  end.

End DaysOld.

(** *** An instance of the date parser: the ISO forms

    The forms [YYYY-MM-DD], [YYYY-MM-DDTHH:mm:ssZ] and
    [YYYY-MM-DDTHH:mm:ss.sssZ] of the language's date-time string format,
    read as UTC; every other string is an invalid date. *)

Definition digitVal (c : ascii) : option Z :=
  let n := Z.of_N (N_of_ascii c) in
  if (48 <=? n) && (n <=? 57) then Some (n - 48) else None.

Fixpoint readDigits (w : nat) (acc : Z) (s : string) : option (Z * string) :=
  match w with
  | O => Some (acc, s)
  | S w' =>
      match s with
      | String c r =>
          match digitVal c with
          | Some d => readDigits w' (10 * acc + d) r
          | None => None
          end
      | EmptyString => None
      end
  end.

Definition expectChar (c : ascii) (s : string) : option string :=
  match s with
  | String c' r => if Ascii.eqb c c' then Some r else None
  | EmptyString => None
  end.

Notation "'let?' x ':=' e 'in' k" :=
  (match e with Some x => k | None => None end)
  (at level 10, x pattern, e at level 100, k at level 200, only parsing).

Definition isLeapYear (y : Z) : bool :=
  ((y mod 4 =? 0) && negb (y mod 100 =? 0)) || (y mod 400 =? 0).

Definition daysInMonth (y m : Z) : Z :=
  if m =? 2 then (if isLeapYear y then 29 else 28)
  else if (m =? 4) || (m =? 6) || (m =? 9) || (m =? 11) then 30
  else 31.

(** Days from 1970-01-01 to the civil date [y-m-d]. *)
Definition daysFromCivil (y m d : Z) : Z :=
  let y' := if m <=? 2 then y - 1 else y in
  let era := y' / 400 in
  let yoe := y' - era * 400 in
  let mp := if m <=? 2 then m + 9 else m - 3 in
  let doy := (153 * mp + 2) / 5 + d - 1 in
  let doe := yoe * 365 + yoe / 4 - yoe / 100 + doy in
  era * 146097 + doe - 719468.

Definition readDate (s : string) : option (Z * string) :=
  let? (y, s) := readDigits 4 0 s in
  let? s := expectChar "-" s in
  let? (m, s) := readDigits 2 0 s in
  let? s := expectChar "-" s in
  let? (d, s) := readDigits 2 0 s in
  if (1 <=? m) && (m <=? 12) && (1 <=? d) && (d <=? daysInMonth y m)
  then Some (daysFromCivil y m d * msPerDay, s)
  else None.

Definition readTime (s : string) : option (Z * string) :=
  let? s := expectChar "T" s in
  let? (h, s) := readDigits 2 0 s in
  let? s := expectChar ":" s in
  let? (mi, s) := readDigits 2 0 s in
  let? s := expectChar ":" s in
  let? (sec, s) := readDigits 2 0 s in
  let? (ms, s) :=
    match expectChar "." s with
    | Some s' => readDigits 3 0 s'
    | None => Some (0, s)
    end in
  let? s := expectChar "Z" s in
  if (h <=? 23) && (mi <=? 59) && (sec <=? 59)
  then Some (((h * 60 + mi) * 60 + sec) * 1000 + ms, s)
  else None.

Definition isoDateParse (s : string) : TimeValue :=
  match readDate s with
  | Some (day, EmptyString) => Ms day
  | Some (day, rest) =>
      match readTime rest with
      | Some (t, EmptyString) => Ms (day + t)
      | _ => InvalidDate
      end
  | None => InvalidDate
  end.

(** ** Strings *)

Definition lowerAscii (c : ascii) : ascii :=
  let n := N_of_ascii c in
  if (65 <=? n)%N && (n <=? 90)%N then ascii_of_N (n + 32) else c.

(** [s.toLowerCase()], on the ASCII letters. *)
Fixpoint toLowerCase (s : string) : string :=
  match s with
  | EmptyString => EmptyString
  | String c r => String (lowerAscii c) (toLowerCase r)
  end.

(** [s.includes(sub)]: [sub] occurs in [s] at some position. *)
Fixpoint includes (s sub : string) : bool :=
  String.prefix sub s ||
  match s with
  | EmptyString => false
  | String _ r => includes r sub
  end.

(** A string as a condition: [''] is falsy. *)
Definition truthy (s : string) : bool :=
  match s with
  | EmptyString => false
  | String _ _ => true
  end.

(** ** Report rows *)

Record PaymentAgingRecord : Type := {
  vendor : string;
  outstandingAmount : Q;
  avgDaysPending : Q;
  oldestInvoiceDate : string;
  oldestInvoiceDays : JsNum
}.

Record ComplianceRecord : Type := {
  cVendor : string;
  totalInvoices : Q;
  compliantPercentage : Q;
  issuesFound : Q
}.

Record SLABreachRecord : Type := {
  slaType : string;
  breachCount : Q;
  avgDelayDays : Q
}.

Inductive TimeRange : Type := weekly | monthly | yearly.

(** Comparisons of numbers, as booleans. *)
Definition Qgtb (x y : Q) : bool := negb (Qle_bool x y).
Definition Qltb (x y : Q) : bool := negb (Qle_bool y x).
Definition Qleb (x y : Q) : bool := Qle_bool x y.
Definition Qgeb (x y : Q) : bool := Qle_bool y x.

(** ** Filters *)

(** [l.filter(p)] when [cond] holds, [l] otherwise: the shape of every
    filter step of the component. *)
Definition filterWhen {A : Type} (cond : bool) (p : A -> bool) (l : list A)
  : list A :=
  if cond then filter p l else l.

Definition isAll (slot : string) : bool := String.eqb slot "all".

(** The callback of the vendor filter. *)
Definition vendorMatches (vendorFilter : string) (name : string) : bool :=
  includes (toLowerCase name) (toLowerCase vendorFilter).

(** The callback of the payment-status filter. *)
Definition agingStatusMatches (agingStatusFilter : string)
  (item : PaymentAgingRecord) : bool :=
  if String.eqb agingStatusFilter "overdue"
  then Qgtb (avgDaysPending item) 30
  else if String.eqb agingStatusFilter "warning"
  then Qgtb (avgDaysPending item) 15 && Qleb (avgDaysPending item) 30
  else if String.eqb agingStatusFilter "good"
  then Qleb (avgDaysPending item) 15
  else true.

Definition filterPaymentAging (agingVendorFilter agingStatusFilter : string)
  (agingData : list PaymentAgingRecord) : list PaymentAgingRecord :=
  let filtered := agingData in
  let filtered :=
    filterWhen (truthy agingVendorFilter)
      (fun item => vendorMatches agingVendorFilter (vendor item)) filtered in
  let filtered :=
    filterWhen (negb (isAll agingStatusFilter))
      (agingStatusMatches agingStatusFilter) filtered in
  filtered.

(** The callback of the compliance-level filter. *)
Definition complianceLevelMatches (complianceFilter : string)
  (item : ComplianceRecord) : bool :=
  if String.eqb complianceFilter "high"
  then Qgeb (compliantPercentage item) 95
  else if String.eqb complianceFilter "medium"
  then Qgeb (compliantPercentage item) 85 && Qltb (compliantPercentage item) 95
  else if String.eqb complianceFilter "low"
  then Qltb (compliantPercentage item) 85
  else true.

Definition filterCompliance (complianceVendorFilter complianceFilter : string)
  (complianceData : list ComplianceRecord) : list ComplianceRecord :=
  let filtered := complianceData in
  let filtered :=
    filterWhen (truthy complianceVendorFilter)
      (fun item => vendorMatches complianceVendorFilter (cVendor item))
      filtered in
  let filtered :=
    filterWhen (negb (isAll complianceFilter))
      (complianceLevelMatches complianceFilter) filtered in
  filtered.

(** The callbacks of the two severity filters. *)
Definition breachSeverityMatches (slaBreachSeverity : string)
  (item : SLABreachRecord) : bool :=
  if String.eqb slaBreachSeverity "high"
  then Qgeb (breachCount item) 12
  else if String.eqb slaBreachSeverity "medium"
  then Qgeb (breachCount item) 8 && Qltb (breachCount item) 12
  else if String.eqb slaBreachSeverity "low"
  then Qltb (breachCount item) 8
  else true.

Definition delaySeverityMatches (slaDelaySeverity : string)
  (item : SLABreachRecord) : bool :=
  if String.eqb slaDelaySeverity "critical"
  then Qgtb (avgDelayDays item) 5
  else if String.eqb slaDelaySeverity "moderate"
  then Qgtb (avgDelayDays item) 3 && Qleb (avgDelayDays item) 5
  else if String.eqb slaDelaySeverity "minor"
  then Qleb (avgDelayDays item) 3
  else true.

Definition filterSLABreaches
  (slaTypeFilter slaBreachSeverity slaDelaySeverity : string)
  (slaBreachData : list SLABreachRecord) : list SLABreachRecord :=
  let filtered := slaBreachData in
  let filtered :=
    filterWhen (negb (isAll slaTypeFilter))
      (fun item => String.eqb (slaType item) slaTypeFilter) filtered in
  let filtered :=
    filterWhen (negb (isAll slaBreachSeverity))
      (breachSeverityMatches slaBreachSeverity) filtered in
  let filtered :=
    filterWhen (negb (isAll slaDelaySeverity))
      (delaySeverityMatches slaDelaySeverity) filtered in
  filtered.

(** *** The filter engine in the specification's words

    A slot is a value and a predicate on rows; a slot at its neutral value
    ([''] for text, ['all'] for a bucket) constrains nothing, and the
    output keeps, in order, the rows on which every slot holds. *)

Definition textSlot (value : string) (field : string) : bool :=
  if String.eqb value EmptyString then true else vendorMatches value field.

Definition bucketSlot {A : Type} (value : string)
  (bucket : string -> A -> bool) (row : A) : bool :=
  if String.eqb value "all" then true else bucket value row.

Definition agingSlots (vendorFilter statusFilter : string)
  (row : PaymentAgingRecord) : bool :=
  textSlot vendorFilter (vendor row) &&
  bucketSlot statusFilter agingStatusMatches row.

Definition complianceSlots (vendorFilter levelFilter : string)
  (row : ComplianceRecord) : bool :=
  textSlot vendorFilter (cVendor row) &&
  bucketSlot levelFilter complianceLevelMatches row.

Definition slaSlots (typeFilter breachSeverity delaySeverity : string)
  (row : SLABreachRecord) : bool :=
  bucketSlot typeFilter (fun v r => String.eqb (slaType r) v) row &&
  bucketSlot breachSeverity breachSeverityMatches row &&
  bucketSlot delaySeverity delaySeverityMatches row.

(** The three status buckets of the aging table, one at a time. *)
Definition isOverdue (row : PaymentAgingRecord) : bool :=
  agingStatusMatches "overdue" row.
Definition isWarning (row : PaymentAgingRecord) : bool :=
  agingStatusMatches "warning" row.
Definition isGood (row : PaymentAgingRecord) : bool :=
  agingStatusMatches "good" row.

(** Exactly one of three booleans. *)
Definition exactlyOne (a b c : bool) : bool :=
  (a && negb b && negb c) || (negb a && b && negb c) ||
  (negb a && negb b && c).

(** [record.oldestInvoiceDays > 30], the test the table marks an old
    invoice by; a comparison with NaN is false. *)
Definition invoiceIsOverdue (record : PaymentAgingRecord) : bool :=
  match oldestInvoiceDays record with
  | JNum d => 30 <? d
  | JNaN => false
  end.

(** ** Pagination *)

Definition itemsPerPage : Z := 10.

Definition len {A : Type} (l : list A) : Z := Z.of_nat (List.length l).

(** [Math.ceil(n / p)] *)
Definition Math_ceil_div (n p : Z) : Z :=
  Qceiling (inject_Z n / inject_Z p).

(** [l.slice(start, end)]: a negative index counts from the end, both
    are clamped to the length, and an empty range gives [[]]. *)
Definition slice {A : Type} (l : list A) (start stop : Z) : list A :=
  let k := if start <? 0 then Z.max (len l + start) 0
           else Z.min start (len l) in
  let final := if stop <? 0 then Z.max (len l + stop) 0
               else Z.min stop (len l) in
  firstn (Z.to_nat (final - k)) (skipn (Z.to_nat k) l).

Section Paging.
Context {A : Type}.
Variable pageSize : Z.
Variable filtered : list A.
Variable currentPage : Z.

Definition totalPages : Z := Math_ceil_div (len filtered) pageSize.
Definition startIndex : Z := (currentPage - 1) * pageSize.
Definition endIndex : Z := Z.min (startIndex + pageSize) (len filtered).
Definition paginated : list A := slice filtered startIndex endIndex.

End Paging.

(** ** CSV export *)

Definition comma : ascii := ","%char.
Definition dquote : ascii := "034"%char.
Definition newline : ascii := "010"%char.

Definition str (c : ascii) : string := String c EmptyString.

(** A property value as [toCSV] sees it: [undefined], [null], or a value
    known through [String(val)]. *)
Inductive CellValue : Type :=
| Undefined
| Null
| Val (text : string).

(** A [Record<string, unknown>]: a plain object, given by its own
    properties in key order, each key once.  What it does not own it
    inherits from [Object.prototype]. *)
Definition Row : Type := list (string * CellValue).

Definition Object_keys (row : Row) : list string := map fst row.

(** The text of a built-in function, as V8 prints it. *)
Definition nativeFunction (name : string) : CellValue :=
  Val ("function " ++ name ++ "() { [native code] }").

(** The methods of [Object.prototype] that carry their own name. *)
Definition prototypeMethods : list string :=
  ["toString"; "toLocaleString"; "valueOf"; "hasOwnProperty";
   "isPrototypeOf"; "propertyIsEnumerable"; "__defineGetter__";
   "__defineSetter__"; "__lookupGetter__"; "__lookupSetter__"].

(** Every property name of [Object.prototype]. *)
Definition prototypeNames : list string :=
  "constructor" :: "__proto__" :: prototypeMethods.

(** [Object.prototype[h]]: the constructor [Object], a method, the
    prototype itself under [__proto__], or nothing. *)
Definition Object_prototype (h : string) : CellValue :=
  if String.eqb h "constructor" then nativeFunction "Object"
  else if existsb (String.eqb h) prototypeMethods then nativeFunction h
  else if String.eqb h "__proto__" then Val "[object Object]"
  else Undefined.

(** [row[h]]: the row's own property, or else the inherited one. *)
Fixpoint getProp (row : Row) (h : string) : CellValue :=
  match row with
  | [] => Object_prototype h
  | (k, v) :: r => if String.eqb k h then v else getProp r h
  end.

(** [Array.from(new Set(l))]: first occurrences, in order. *)
Fixpoint uniq (l : list string) : list string :=
  match l with
  | [] => []
  | x :: r => x :: filter (fun y => negb (String.eqb x y)) (uniq r)
  end.

(** [l.join(sep)] *)
Fixpoint join (sep : string) (l : list string) : string :=
  match l with
  | [] => EmptyString
  | x :: r =>
      match r with
      | [] => x
      | _ :: _ => x ++ sep ++ join sep r
      end
  end.

(** [String(val)] with [null] and [undefined] as the empty string. *)
Definition stringify (val : CellValue) : string :=
  match val with
  | Undefined | Null => EmptyString
  | Val s => s
  end.

(** [s.replace] of every quote character by two of them. *)
Fixpoint doubleQuotes (s : string) : string :=
  match s with
  | EmptyString => EmptyString
  | String c r =>
      if Ascii.eqb c dquote
      then String dquote (String dquote (doubleQuotes r))
      else String c (doubleQuotes r)
  end.

Definition needsQuotes (s : string) : bool :=
  includes s (str comma) || includes s (str dquote) || includes s (str newline).

Definition escapeCSV (val : CellValue) : string :=
  let s := stringify val in
  if needsQuotes s
  then str dquote ++ doubleQuotes s ++ str dquote
  else s.

(** The [headers] of [toCSV]: the given order when there is one, the keys
    of the rows in first-seen order otherwise. *)
Definition csvHeaders (rows : list Row) (headerOrder : option (list string))
  : list string :=
  match headerOrder with
  | Some (h :: t) => h :: t
  | _ => uniq (flat_map Object_keys rows)
  end.

Definition recordLine (headers : list string) (row : Row) : string :=
  join (str comma) (map (fun h => escapeCSV (getProp row h)) headers).

(** [toCSV(rows, headerOrder)], for an array [rows]; [None] is an omitted
    [headerOrder]. *)
Definition toCSV (rows : list Row) (headerOrder : option (list string))
  : string :=
  match rows with
  | [] => EmptyString
  | _ :: _ =>
      let headers := csvHeaders rows headerOrder in
      let lines := join (str comma) headers ::
                   map (recordLine headers) rows in
      join (str newline) lines
  end.

(** *** Reading an export back *)

Inductive Mode : Type := AtStart | InBare | InQuoted | AfterQuote.

(** The field being read, the fields that follow it in its record, and
    the records after that one. *)
Definition Partial : Type := (string * list string * list (list string))%type.

Definition addChar (c : ascii) (p : Partial) : Partial :=
  let '(f, r, rs) := p in (String c f, r, rs).

Definition endField (p : Partial) : Partial :=
  let '(f, r, rs) := p in (EmptyString, f :: r, rs).

Definition endRecord (p : Partial) : Partial :=
  let '(f, r, rs) := p in (EmptyString, [], (f :: r) :: rs).

(** The break after a field, if [c] is one. *)
Definition fieldBreak (c : ascii) (rest : Partial) : option Partial :=
  if Ascii.eqb c comma then Some (endField rest)
  else if Ascii.eqb c newline then Some (endRecord rest)
  else None.

Fixpoint scan (m : Mode) (s : string) : Partial :=
  match s with
  | EmptyString => (EmptyString, [], [])
  | String c rest =>
      match m with
      | InQuoted =>
          if Ascii.eqb c dquote then scan AfterQuote rest
          else addChar c (scan InQuoted rest)
      | AtStart =>
          if Ascii.eqb c dquote then scan InQuoted rest
          else match fieldBreak c (scan AtStart rest) with
               | Some p => p
               | None => addChar c (scan InBare rest)
               end
      | InBare =>
          match fieldBreak c (scan AtStart rest) with
          | Some p => p
          | None => addChar c (scan InBare rest)
          end
      | AfterQuote =>
          if Ascii.eqb c dquote then addChar c (scan InQuoted rest)
          else match fieldBreak c (scan AtStart rest) with
               | Some p => p
               | None => addChar c (scan InBare rest)
               end
      end
  end.

(** Modelled from the spec: the reader of the round-trip property, which
    re-parses an export with the same delimiter and quote rules; the
    component has no CSV reader.  Fields are separated by commas and
    records by newlines; a field that opens with a quote runs to its
    closing quote, and a doubled quote inside it is one quote. *)
Definition parseCSV (s : string) : list (list string) :=
  let '(f, r, rs) := scan AtStart s in (f :: r) :: rs.

Definition cellAt (table : list (list string)) (i j : nat) : option string :=
  match nth_error table i with
  | Some record => nth_error record j
  | None => None
  end.

(** Every field value of [rows] is read back from the export: record [i+1]
    of the parsed text (record 0 is the header row) has, in column [j],
    the string of row [i] under header [j]. *)
Definition RoundTrips (rows : list Row) (headerOrder : option (list string))
  : Prop :=
  forall i j row h,
    nth_error rows i = Some row ->
    nth_error (csvHeaders rows headerOrder) j = Some h ->
    cellAt (parseCSV (toCSV rows headerOrder)) (S i) j
    = Some (stringify (getProp row h)).

(** A header that is written as it stands and read back as it stands. *)
Definition plainHeader (h : string) : Prop := needsQuotes h = false.

(** ** What the payments API answers *)

(** Modelled from the spec: the response types of [services/paymentsApi],
    which is not among the sources.  The fields are those the handlers
    read; [None] is a field, or the response around it, that is [null] or
    [undefined]. *)
Module Api.

Record AgingItem : Type := {
  vendorName : string;
  outstandingAmount : Q;
  avgPendingDays : Q;
  oldestInvoiceDate : option string
}.

Record ComplianceData : Type := {
  vendors : option (list ComplianceRecord);
  overallComplianceRate : option Q
}.

Record SlaData : Type := {
  items : option (list SLABreachRecord);
  totalBreaches : option Q;
  avgDelayAcrossAll : option Q
}.

Record SummaryData : Type := {
  released : option Q;
  pending : option Q
}.

Record TrendPoint : Type := {
  period : string;
  trendReleased : Q;
  trendPending : Q
}.

End Api.

(** How a request ends. *)
Inductive Settled (A : Type) : Type :=
| Fulfilled (resp : A)
| Rejected.
Arguments Fulfilled {A} resp.
Arguments Rejected {A}.

(** [x || 0] *)
Definition orZero (x : option Q) : Q :=
  match x with
  | Some q => if Qeq_bool q 0 then 0%Q else q
  | None => 0%Q
  end.

(** [x || []]; an array is never falsy. *)
Definition orEmpty {A : Type} (x : option (list A)) : list A :=
  match x with
  | Some l => l
  | None => []
  end.

(** [x || ''] *)
Definition orEmptyString (x : option string) : string :=
  match x with
  | Some s => s
  | None => EmptyString
  end.

(** ** The state cells of the component

    One record per table, with the cells the source declares for it, and
    the cells that belong to no table beside them. *)

Record AgingCells : Type := {
  agingVendorFilter : string;
  agingStatusFilter : string;
  agingData : list PaymentAgingRecord;
  agingCurrentPage : Z
}.

Record ComplianceCells : Type := {
  complianceVendorFilter : string;
  complianceFilter : string;
  complianceData : list ComplianceRecord;
  overallCompliance : Q;
  complianceCurrentPage : Z
}.

Record SlaCells : Type := {
  slaTypeFilter : string;
  slaBreachSeverity : string;
  slaDelaySeverity : string;
  slaBreachData : list SLABreachRecord;
  totalSlaBreaches : Q;
  avgDelayAcrossAll : Q;
  slaCurrentPage : Z
}.

Record State : Type := {
  timeRange : TimeRange;
  loading : bool;
  aging : AgingCells;
  compliance : ComplianceCells;
  sla : SlaCells;
  paymentsReleased : Q;
  pendingPayments : Q;
  paymentChartData : list Api.TrendPoint
}.

Definition initialState : State := {|
  timeRange := weekly;
  loading := false;
  aging := {| agingVendorFilter := EmptyString; agingStatusFilter := "all";
              agingData := []; agingCurrentPage := 1 |};
  compliance := {| complianceVendorFilter := EmptyString;
                   complianceFilter := "all"; complianceData := [];
                   overallCompliance := 0; complianceCurrentPage := 1 |};
  sla := {| slaTypeFilter := "all"; slaBreachSeverity := "all";
            slaDelaySeverity := "all"; slaBreachData := [];
            totalSlaBreaches := 0; avgDelayAcrossAll := 0;
            slaCurrentPage := 1 |};
  paymentsReleased := 0;
  pendingPayments := 0;
  paymentChartData := []
|}.

(** *** The setters *)

Definition setTimeRange (v : TimeRange) (s : State) : State :=
  {| timeRange := v; loading := loading s; aging := aging s;
     compliance := compliance s; sla := sla s;
     paymentsReleased := paymentsReleased s;
     pendingPayments := pendingPayments s;
     paymentChartData := paymentChartData s |}.

Definition setLoading (v : bool) (s : State) : State :=
  {| timeRange := timeRange s; loading := v; aging := aging s;
     compliance := compliance s; sla := sla s;
     paymentsReleased := paymentsReleased s;
     pendingPayments := pendingPayments s;
     paymentChartData := paymentChartData s |}.

Definition withAging (f : AgingCells -> AgingCells) (s : State) : State :=
  {| timeRange := timeRange s; loading := loading s; aging := f (aging s);
     compliance := compliance s; sla := sla s;
     paymentsReleased := paymentsReleased s;
     pendingPayments := pendingPayments s;
     paymentChartData := paymentChartData s |}.

Definition withCompliance (f : ComplianceCells -> ComplianceCells)
  (s : State) : State :=
  {| timeRange := timeRange s; loading := loading s; aging := aging s;
     compliance := f (compliance s); sla := sla s;
     paymentsReleased := paymentsReleased s;
     pendingPayments := pendingPayments s;
     paymentChartData := paymentChartData s |}.

Definition withSla (f : SlaCells -> SlaCells) (s : State) : State :=
  {| timeRange := timeRange s; loading := loading s; aging := aging s;
     compliance := compliance s; sla := f (sla s);
     paymentsReleased := paymentsReleased s;
     pendingPayments := pendingPayments s;
     paymentChartData := paymentChartData s |}.

Definition setPaymentsReleased (v : Q) (s : State) : State :=
  {| timeRange := timeRange s; loading := loading s; aging := aging s;
     compliance := compliance s; sla := sla s;
     paymentsReleased := v;
     pendingPayments := pendingPayments s;
     paymentChartData := paymentChartData s |}.

Definition setPendingPayments (v : Q) (s : State) : State :=
  {| timeRange := timeRange s; loading := loading s; aging := aging s;
     compliance := compliance s; sla := sla s;
     paymentsReleased := paymentsReleased s;
     pendingPayments := v;
     paymentChartData := paymentChartData s |}.

Definition setPaymentChartData (v : list Api.TrendPoint) (s : State) : State :=
  {| timeRange := timeRange s; loading := loading s; aging := aging s;
     compliance := compliance s; sla := sla s;
     paymentsReleased := paymentsReleased s;
     pendingPayments := pendingPayments s;
     paymentChartData := v |}.

Definition setAgingVendorFilter (v : string) : State -> State :=
  withAging (fun a =>
    {| agingVendorFilter := v; agingStatusFilter := agingStatusFilter a;
       agingData := agingData a; agingCurrentPage := agingCurrentPage a |}).

Definition setAgingStatusFilter (v : string) : State -> State :=
  withAging (fun a =>
    {| agingVendorFilter := agingVendorFilter a; agingStatusFilter := v;
       agingData := agingData a; agingCurrentPage := agingCurrentPage a |}).

Definition setAgingData (v : list PaymentAgingRecord) : State -> State :=
  withAging (fun a =>
    {| agingVendorFilter := agingVendorFilter a;
       agingStatusFilter := agingStatusFilter a;
       agingData := v; agingCurrentPage := agingCurrentPage a |}).

Definition setAgingCurrentPage (v : Z) : State -> State :=
  withAging (fun a =>
    {| agingVendorFilter := agingVendorFilter a;
       agingStatusFilter := agingStatusFilter a;
       agingData := agingData a; agingCurrentPage := v |}).

Definition setComplianceVendorFilter (v : string) : State -> State :=
  withCompliance (fun c =>
    {| complianceVendorFilter := v; complianceFilter := complianceFilter c;
       complianceData := complianceData c;
       overallCompliance := overallCompliance c;
       complianceCurrentPage := complianceCurrentPage c |}).

Definition setComplianceFilter (v : string) : State -> State :=
  withCompliance (fun c =>
    {| complianceVendorFilter := complianceVendorFilter c;
       complianceFilter := v;
       complianceData := complianceData c;
       overallCompliance := overallCompliance c;
       complianceCurrentPage := complianceCurrentPage c |}).

Definition setComplianceData (v : list ComplianceRecord) : State -> State :=
  withCompliance (fun c =>
    {| complianceVendorFilter := complianceVendorFilter c;
       complianceFilter := complianceFilter c;
       complianceData := v;
       overallCompliance := overallCompliance c;
       complianceCurrentPage := complianceCurrentPage c |}).

Definition setOverallCompliance (v : Q) : State -> State :=
  withCompliance (fun c =>
    {| complianceVendorFilter := complianceVendorFilter c;
       complianceFilter := complianceFilter c;
       complianceData := complianceData c;
       overallCompliance := v;
       complianceCurrentPage := complianceCurrentPage c |}).

Definition setComplianceCurrentPage (v : Z) : State -> State :=
  withCompliance (fun c =>
    {| complianceVendorFilter := complianceVendorFilter c;
       complianceFilter := complianceFilter c;
       complianceData := complianceData c;
       overallCompliance := overallCompliance c;
       complianceCurrentPage := v |}).

Definition setSlaTypeFilter (v : string) : State -> State :=
  withSla (fun c =>
    {| slaTypeFilter := v; slaBreachSeverity := slaBreachSeverity c;
       slaDelaySeverity := slaDelaySeverity c;
       slaBreachData := slaBreachData c;
       totalSlaBreaches := totalSlaBreaches c;
       avgDelayAcrossAll := avgDelayAcrossAll c;
       slaCurrentPage := slaCurrentPage c |}).

Definition setSlaBreachSeverity (v : string) : State -> State :=
  withSla (fun c =>
    {| slaTypeFilter := slaTypeFilter c; slaBreachSeverity := v;
       slaDelaySeverity := slaDelaySeverity c;
       slaBreachData := slaBreachData c;
       totalSlaBreaches := totalSlaBreaches c;
       avgDelayAcrossAll := avgDelayAcrossAll c;
       slaCurrentPage := slaCurrentPage c |}).

Definition setSlaDelaySeverity (v : string) : State -> State :=
  withSla (fun c =>
    {| slaTypeFilter := slaTypeFilter c;
       slaBreachSeverity := slaBreachSeverity c;
       slaDelaySeverity := v;
       slaBreachData := slaBreachData c;
       totalSlaBreaches := totalSlaBreaches c;
       avgDelayAcrossAll := avgDelayAcrossAll c;
       slaCurrentPage := slaCurrentPage c |}).

Definition setSlaBreachData (v : list SLABreachRecord) : State -> State :=
  withSla (fun c =>
    {| slaTypeFilter := slaTypeFilter c;
       slaBreachSeverity := slaBreachSeverity c;
       slaDelaySeverity := slaDelaySeverity c;
       slaBreachData := v;
       totalSlaBreaches := totalSlaBreaches c;
       avgDelayAcrossAll := avgDelayAcrossAll c;
       slaCurrentPage := slaCurrentPage c |}).

Definition setTotalSlaBreaches (v : Q) : State -> State :=
  withSla (fun c =>
    {| slaTypeFilter := slaTypeFilter c;
       slaBreachSeverity := slaBreachSeverity c;
       slaDelaySeverity := slaDelaySeverity c;
       slaBreachData := slaBreachData c;
       totalSlaBreaches := v;
       avgDelayAcrossAll := avgDelayAcrossAll c;
       slaCurrentPage := slaCurrentPage c |}).

Definition setAvgDelayAcrossAll (v : Q) : State -> State :=
  withSla (fun c =>
    {| slaTypeFilter := slaTypeFilter c;
       slaBreachSeverity := slaBreachSeverity c;
       slaDelaySeverity := slaDelaySeverity c;
       slaBreachData := slaBreachData c;
       totalSlaBreaches := totalSlaBreaches c;
       avgDelayAcrossAll := v;
       slaCurrentPage := slaCurrentPage c |}).

Definition setSlaCurrentPage (v : Z) : State -> State :=
  withSla (fun c =>
    {| slaTypeFilter := slaTypeFilter c;
       slaBreachSeverity := slaBreachSeverity c;
       slaDelaySeverity := slaDelaySeverity c;
       slaBreachData := slaBreachData c;
       totalSlaBreaches := totalSlaBreaches c;
       avgDelayAcrossAll := avgDelayAcrossAll c;
       slaCurrentPage := v |}).

(** ** Events

    What the component reacts to: the controls of the three filter bars,
    the pagination controls, the time-range buttons, and the end of each
    request.  A request's event carries [mounted], the flag of the effect
    that sent it, as its callbacks find it.  The chip that removes one
    filter is the input of that filter's neutral value. *)
Inductive Event : Type :=
| AgingVendorTyped (v : string)
| AgingStatusPicked (v : string)
| AgingResetClicked
| AgingClearAllClicked
| AgingPageRequested (page : Z)
| ComplianceVendorTyped (v : string)
| ComplianceLevelPicked (v : string)
| ComplianceResetClicked
| ComplianceClearAllClicked
| CompliancePageRequested (page : Z)
| SlaTypePicked (v : string)
| SlaBreachSeverityPicked (v : string)
| SlaDelaySeverityPicked (v : string)
| SlaResetClicked
| SlaClearAllClicked
| SlaPageRequested (page : Z)
| TimeRangeClicked (r : TimeRange)
| AgingFetch (mounted : bool) (now : Z)
    (res : Settled (option (list Api.AgingItem)))
| ComplianceFetch (mounted : bool) (res : Settled (option Api.ComplianceData))
| SlaFetch (mounted : bool) (res : Settled (option Api.SlaData))
| SummaryFetch (mounted : bool) (res : Settled (option Api.SummaryData))
| TrendsFetch (mounted : bool)
    (res : Settled (option (list Api.TrendPoint))).

(** [resp?.data?.field] *)
Definition field {A B : Type} (resp : option A) (f : A -> option B)
  : option B :=
  match resp with
  | Some d => f d
  | None => None
  end.

(** [.then(onOk).finally(() => { if (mounted) setLoading(false) })], with
    [if (!mounted) return] at the head of [onOk]. *)
Definition thenFinally {A : Type} (mounted : bool) (res : Settled A)
  (onOk : A -> State -> State) (s : State) : State :=
  let s := match res with
           | Fulfilled resp => if mounted then onOk resp s else s
           | Rejected => s
           end in
  if mounted then setLoading false s else s.

(** [.then(onOk).catch(() => {})], with the same guard. *)
Definition thenCatch {A : Type} (mounted : bool) (res : Settled A)
  (onOk : A -> State -> State) (s : State) : State :=
  match res with
  | Fulfilled resp => if mounted then onOk resp s else s
  | Rejected => s
  end.

Section Component.

Variable Date_parse : string -> TimeValue.

(** The row made of one item of the aging response. *)
Definition agingRecord (now : Z) (r : Api.AgingItem) : PaymentAgingRecord :=
  let oldestDays := computeDaysOld Date_parse now (Api.oldestInvoiceDate r) in
  {| vendor := Api.vendorName r;
     outstandingAmount := Api.outstandingAmount r;
     avgDaysPending := Api.avgPendingDays r;
     oldestInvoiceDate := orEmptyString (Api.oldestInvoiceDate r);
     oldestInvoiceDays := oldestDays |}.

Definition onAging (now : Z) (resp : option (list Api.AgingItem))
  (s : State) : State :=
  setAgingData (map (agingRecord now) (orEmpty resp)) s.

Definition onCompliance (resp : option Api.ComplianceData) (s : State)
  : State :=
  let s := setComplianceData (orEmpty (field resp Api.vendors)) s in
  setOverallCompliance (orZero (field resp Api.overallComplianceRate)) s.

Definition onSla (resp : option Api.SlaData) (s : State) : State :=
  let s := setSlaBreachData (orEmpty (field resp Api.items)) s in
  let s := setTotalSlaBreaches (orZero (field resp Api.totalBreaches)) s in
  setAvgDelayAcrossAll (orZero (field resp Api.avgDelayAcrossAll)) s.

Definition onSummary (resp : option Api.SummaryData) (s : State) : State :=
  let s := setPaymentsReleased (orZero (field resp Api.released)) s in
  setPendingPayments (orZero (field resp Api.pending)) s.

Definition onTrends (resp : option (list Api.TrendPoint)) (s : State)
  : State :=
  setPaymentChartData (orEmpty resp) s.

(** The state updates an event's handler asks for. *)
Definition handle (ev : Event) (s : State) : State :=
  match ev with
  | AgingVendorTyped v => setAgingVendorFilter v s
  | AgingStatusPicked v => setAgingStatusFilter v s
  | AgingResetClicked =>
      setAgingCurrentPage 1
        (setAgingStatusFilter "all" (setAgingVendorFilter EmptyString s))
  | AgingClearAllClicked =>
      setAgingStatusFilter "all" (setAgingVendorFilter EmptyString s)
  | AgingPageRequested page => setAgingCurrentPage page s
  | ComplianceVendorTyped v => setComplianceVendorFilter v s
  | ComplianceLevelPicked v => setComplianceFilter v s
  | ComplianceResetClicked =>
      setComplianceCurrentPage 1
        (setComplianceFilter "all" (setComplianceVendorFilter EmptyString s))
  | ComplianceClearAllClicked =>
      setComplianceFilter "all" (setComplianceVendorFilter EmptyString s)
  | CompliancePageRequested page => setComplianceCurrentPage page s
  | SlaTypePicked v => setSlaTypeFilter v s
  | SlaBreachSeverityPicked v => setSlaBreachSeverity v s
  | SlaDelaySeverityPicked v => setSlaDelaySeverity v s
  | SlaResetClicked =>
      setSlaCurrentPage 1
        (setSlaDelaySeverity "all"
           (setSlaBreachSeverity "all" (setSlaTypeFilter "all" s)))
  | SlaClearAllClicked =>
      setSlaDelaySeverity "all"
        (setSlaBreachSeverity "all" (setSlaTypeFilter "all" s))
  | SlaPageRequested page => setSlaCurrentPage page s
  | TimeRangeClicked r => setTimeRange r s
  | AgingFetch mounted now res => thenFinally mounted res (onAging now) s
  | ComplianceFetch mounted res => thenFinally mounted res onCompliance s
  | SlaFetch mounted res => thenFinally mounted res onSla s
  | SummaryFetch mounted res => thenCatch mounted res onSummary s
  | TrendsFetch mounted res => thenFinally mounted res onTrends s
  end.

End Component.

(** *** Effects

    A [useEffect] callback runs after a render has been committed, and
    only if one of its dependencies differs from its value at the render
    before.  [prev] is the state of the render before, [cur] the state
    just rendered. *)

Definition agingFiltersChanged (prev cur : State) : bool :=
  negb (String.eqb (agingVendorFilter (aging prev))
                   (agingVendorFilter (aging cur))) ||
  negb (String.eqb (agingStatusFilter (aging prev))
                   (agingStatusFilter (aging cur))).

Definition complianceFiltersChanged (prev cur : State) : bool :=
  negb (String.eqb (complianceVendorFilter (compliance prev))
                   (complianceVendorFilter (compliance cur))) ||
  negb (String.eqb (complianceFilter (compliance prev))
                   (complianceFilter (compliance cur))).

Definition slaFiltersChanged (prev cur : State) : bool :=
  negb (String.eqb (slaTypeFilter (sla prev)) (slaTypeFilter (sla cur))) ||
  negb (String.eqb (slaBreachSeverity (sla prev))
                   (slaBreachSeverity (sla cur))) ||
  negb (String.eqb (slaDelaySeverity (sla prev))
                   (slaDelaySeverity (sla cur))).

Definition timeRangeEqb (a b : TimeRange) : bool :=
  match a, b with
  | weekly, weekly | monthly, monthly | yearly, yearly => true
  | _, _ => false
  end.

(** The three page-reset effects, and the [setLoading(true)] of the trends
    effect; the requests the effects send come back as events. *)
Definition runEffects (prev cur : State) : State :=
  let s := cur in
  let s := if agingFiltersChanged prev cur
           then setAgingCurrentPage 1 s else s in
  let s := if complianceFiltersChanged prev cur
           then setComplianceCurrentPage 1 s else s in
  let s := if slaFiltersChanged prev cur
           then setSlaCurrentPage 1 s else s in
  let s := if negb (timeRangeEqb (timeRange prev) (timeRange cur))
           then setLoading true s else s in
  s.

(** Every effect runs after the first render. *)
Definition mountEffects (s : State) : State :=
  setLoading true
    (setSlaCurrentPage 1 (setComplianceCurrentPage 1 (setAgingCurrentPage 1 s))).

Definition mountedState : State := mountEffects initialState.

Section Rendering.

Variable Date_parse : string -> TimeValue.

(** The states the component renders after an event: the handler's
    updates first, then the updates of the effects that render set off. *)
Definition firstRender (ev : Event) (s : State) : State :=
  handle Date_parse ev s.

Definition settle (ev : Event) (s : State) : State :=
  runEffects s (firstRender ev s).

Definition renders (ev : Event) (s : State) : list State :=
  [firstRender ev s; settle ev s].

Definition run (evs : list Event) (s : State) : State :=
  fold_left (fun s ev => settle ev s) evs s.

End Rendering.

(** ** What a render computes *)

Definition filteredPaymentAging (s : State) : list PaymentAgingRecord :=
  filterPaymentAging (agingVendorFilter (aging s))
    (agingStatusFilter (aging s)) (agingData (aging s)).

Definition filteredCompliance (s : State) : list ComplianceRecord :=
  filterCompliance (complianceVendorFilter (compliance s))
    (complianceFilter (compliance s)) (complianceData (compliance s)).

Definition filteredSLABreaches (s : State) : list SLABreachRecord :=
  filterSLABreaches (slaTypeFilter (sla s)) (slaBreachSeverity (sla s))
    (slaDelaySeverity (sla s)) (slaBreachData (sla s)).

Definition agingTotalPages (s : State) : Z :=
  totalPages itemsPerPage (filteredPaymentAging s).
Definition agingStartIndex (s : State) : Z :=
  startIndex itemsPerPage (agingCurrentPage (aging s)).
Definition agingEndIndex (s : State) : Z :=
  endIndex itemsPerPage (filteredPaymentAging s) (agingCurrentPage (aging s)).
Definition paginatedPaymentAging (s : State) : list PaymentAgingRecord :=
  paginated itemsPerPage (filteredPaymentAging s) (agingCurrentPage (aging s)).

Definition complianceTotalPages (s : State) : Z :=
  totalPages itemsPerPage (filteredCompliance s).
Definition paginatedCompliance (s : State) : list ComplianceRecord :=
  paginated itemsPerPage (filteredCompliance s)
    (complianceCurrentPage (compliance s)).

Definition slaTotalPages (s : State) : Z :=
  totalPages itemsPerPage (filteredSLABreaches s).
Definition paginatedSLABreaches (s : State) : list SLABreachRecord :=
  paginated itemsPerPage (filteredSLABreaches s) (slaCurrentPage (sla s)).

(** Each table shows its spinner on the one [loading] cell. *)
Definition agingTableLoading (s : State) : bool := loading s.
Definition complianceTableLoading (s : State) : bool := loading s.
Definition slaTableLoading (s : State) : bool := loading s.

Module Metrics.
Record SummaryMetrics : Type := {
  totalOutstanding : Q;
  avgCompliance : Q;
  totalBreaches : Q;
  paymentsReleased : Q;
  pendingPayments : Q
}.
End Metrics.

Definition summaryMetrics (s : State) : Metrics.SummaryMetrics :=
  let totalOutstanding :=
    fold_left (fun sum item => (sum + outstandingAmount item)%Q)
      (agingData (aging s)) 0%Q in
  let avgCompliance := overallCompliance (compliance s) in
  let totalBreaches := totalSlaBreaches (sla s) in
  {| Metrics.totalOutstanding := totalOutstanding;
     Metrics.avgCompliance := avgCompliance;
     Metrics.totalBreaches := totalBreaches;
     Metrics.paymentsReleased := paymentsReleased s;
     Metrics.pendingPayments := pendingPayments s |}.

(** The sum of a list of amounts. *)
Fixpoint sumQ (l : list Q) : Q :=
  match l with
  | [] => 0%Q
  | x :: r => (x + sumQ r)%Q
  end.

(** ** The export handlers

    Each handler makes one object per filtered row, with the keys of its
    header order, and hands the text of [toCSV] to the download. *)

(** The header orders the three report tables pass to [toCSV]. *)
Definition agingHeaders : list string :=
  ["vendor"; "outstandingAmount"; "avgDaysPending"; "oldestInvoiceDate";
   "oldestInvoiceDays"].
Definition complianceHeaders : list string :=
  ["vendor"; "totalInvoices"; "compliantPercentage"; "issuesFound"].
Definition slaHeaders : list string :=
  ["slaType"; "breachCount"; "avgDelayDays"].

Section Exports.

(** [String(n)] for a number of a row; its digits are the engine's
    business. *)
Variable Number_toString : Q -> string.

Definition JsNum_toString (d : JsNum) : string :=
  match d with
  | JNum z => Number_toString (inject_Z z)
  | JNaN => "NaN"
  end.

Definition agingExportRow (r : PaymentAgingRecord) : Row :=
  [("vendor", Val (vendor r));
   ("outstandingAmount", Val (Number_toString (outstandingAmount r)));
   ("avgDaysPending", Val (Number_toString (avgDaysPending r)));
   ("oldestInvoiceDate", Val (oldestInvoiceDate r));
   ("oldestInvoiceDays", Val (JsNum_toString (oldestInvoiceDays r)))].

Definition complianceExportRow (r : ComplianceRecord) : Row :=
  [("vendor", Val (cVendor r));
   ("totalInvoices", Val (Number_toString (totalInvoices r)));
   ("compliantPercentage", Val (Number_toString (compliantPercentage r)));
   ("issuesFound", Val (Number_toString (issuesFound r)))].

Definition slaExportRow (r : SLABreachRecord) : Row :=
  [("slaType", Val (slaType r));
   ("breachCount", Val (Number_toString (breachCount r)));
   ("avgDelayDays", Val (Number_toString (avgDelayDays r)))].

Definition handleAgingExportCSV (s : State) : string :=
  toCSV (map agingExportRow (filteredPaymentAging s)) (Some agingHeaders).

Definition handleComplianceExportCSV (s : State) : string :=
  toCSV (map complianceExportRow (filteredCompliance s))
    (Some complianceHeaders).

Definition handleSlaExportCSV (s : State) : string :=
  toCSV (map slaExportRow (filteredSLABreaches s)) (Some slaHeaders).

End Exports.

(** ** The colours of a row

    The colour classes the tables pick for a row's figures. *)
Inductive Tone : Type := Red | Orange | Yellow | Green.

(** The badge of [avgDaysPending] in the aging table. *)
Definition agingBadge (record : PaymentAgingRecord) : Tone :=
  if Qgtb (avgDaysPending record) 30 then Red
  else if Qgtb (avgDaysPending record) 15 then Yellow
  else Green.

(** The bar and the figure of [compliantPercentage]. *)
Definition complianceTone (record : ComplianceRecord) : Tone :=
  if Qgeb (compliantPercentage record) 95 then Green
  else if Qgeb (compliantPercentage record) 85 then Yellow
  else Red.

(** The figure of [avgDelayDays] in the SLA table. *)
Definition delayTone (record : SLABreachRecord) : Tone :=
  if Qgtb (avgDelayDays record) 5 then Red
  else if Qgtb (avgDelayDays record) 3 then Orange
  else Yellow.

(** ** The breach bar of the SLA table *)

(** A number that can be infinite or NaN.  The sign of a zero is not
    kept. *)
Inductive JsReal : Type :=
| Finite (q : Q)
| PosInfinity
| NegInfinity
| NotANumber.

Definition Qmaxb (x y : Q) : Q := if Qle_bool x y then y else x.

(** [Math.max(...l)]: minus infinity for no argument. *)
Definition Math_max_of (l : list Q) : JsReal :=
  match l with
  | [] => NegInfinity
  | x :: r => Finite (fold_left Qmaxb r x)
  end.

(** [x / m] for a finite [x]. *)
Definition jsDiv (x : Q) (m : JsReal) : JsReal :=
  match m with
  | Finite d =>
      if Qeq_bool d 0
      then (if Qeq_bool x 0 then NotANumber
            else if Qle_bool 0 x then PosInfinity else NegInfinity)
      else Finite (x / d)
  | PosInfinity | NegInfinity => Finite 0
  | NotANumber => NotANumber
  end.

(** [w * 100] *)
Definition jsTimes100 (w : JsReal) : JsReal :=
  match w with
  | Finite q => Finite (q * 100)
  | other => other
  end.

Definition maxBreaches (filtered : list SLABreachRecord) : JsReal :=
  Math_max_of (map breachCount filtered).

Definition barWidth (filtered : list SLABreachRecord)
  (record : SLABreachRecord) : JsReal :=
  jsTimes100 (jsDiv (breachCount record) (maxBreaches filtered)).

(** [barWidth > 25], the test for the figure inside the bar. *)
Definition showsBarLabel (w : JsReal) : bool :=
  match w with
  | Finite q => Qgtb q 25
  | PosInfinity => true
  | NegInfinity | NotANumber => false
  end.

(** ** The print export

    The three PDF handlers run the same steps on a hidden frame: append
    it, write the document, listen for [afterprint], and start a timer
    that prints and then starts the timer of the fallback cleanup.  What
    the handlers do to the frame is kept; the document is not. *)

Record PrintJob : Type := {
  attached : bool;      (* the frame is a child of the body *)
  written : bool;       (* the document has been written into it *)
  listening : bool;     (* the afterprint listener is registered *)
  printTimer : bool;    (* the 250 ms timer is pending *)
  cleanupTimer : bool;  (* the 1500 ms timer is pending *)
  prints : nat;         (* calls of print() *)
  removals : nat        (* calls of removeChild *)
}.

(** [cleanup()]: remove the frame if it still has a parent. *)
Definition cleanup (j : PrintJob) : PrintJob :=
  if attached j
  then {| attached := false; written := written j;
          listening := listening j; printTimer := printTimer j;
          cleanupTimer := cleanupTimer j; prints := prints j;
          removals := S (removals j) |}
  else j.

(** The handler up to its return; [hasDocument] tells whether the frame
    gave a document. *)
Definition startPrint (hasDocument : bool) : PrintJob :=
  if hasDocument
  then {| attached := true; written := true; listening := true;
          printTimer := true; cleanupTimer := false; prints := 0;
          removals := 0 |}
  else {| attached := false; written := false; listening := false;
          printTimer := false; cleanupTimer := false; prints := 0;
          removals := 1 |}.

Inductive PrintEvent : Type :=
| PrintTimerFires
| AfterPrint
| CleanupTimerFires.

(** What each callback does when its event comes.  A timer that is not
    pending does not fire; a frame that has left the page has no window,
    so it is not printed and gets no [afterprint]; the listener is
    registered with [once]. *)
Definition printStep (j : PrintJob) (ev : PrintEvent) : PrintJob :=
  match ev with
  | PrintTimerFires =>
      if printTimer j
      then {| attached := attached j; written := written j;
              listening := listening j; printTimer := false;
              cleanupTimer := true;
              prints := if attached j then S (prints j) else prints j;
              removals := removals j |}
      else j
  | AfterPrint =>
      if listening j && attached j
      then cleanup {| attached := attached j; written := written j;
                      listening := false; printTimer := printTimer j;
                      cleanupTimer := cleanupTimer j; prints := prints j;
                      removals := removals j |}
      else j
  | CleanupTimerFires =>
      if cleanupTimer j
      then cleanup {| attached := attached j; written := written j;
                      listening := listening j; printTimer := printTimer j;
                      cleanupTimer := false; prints := prints j;
                      removals := removals j |}
      else j
  end.

Definition printRun (evs : list PrintEvent) (j : PrintJob) : PrintJob :=
  fold_left printStep evs j.

(** The end of a request whose effect has been cleaned up. *)
Definition isStaleCompletion (ev : Event) : bool :=
  match ev with
  | AgingFetch false _ _ | ComplianceFetch false _ | SlaFetch false _
  | SummaryFetch false _ | TrendsFetch false _ => true
  | _ => false
  end.

(** ** All the pages of a table *)

(** The visible slices of the pages 1 to [totalPages], one after the
    other. *)
Definition allPages {A : Type} (pageSize : Z) (filtered : list A) : list A :=
  flat_map (fun j => paginated pageSize filtered (Z.of_nat (S j)))
    (seq 0 (Z.to_nat (totalPages pageSize filtered))).

(** ** Sample data *)

(** A row of the aging table that has been pending for [days] days. *)
Definition agingRow (name : string) (days : Q) : PaymentAgingRecord :=
  {| vendor := name; outstandingAmount := 1000; avgDaysPending := days;
     oldestInvoiceDate := "2024-01-01"; oldestInvoiceDays := JNum 14 |}.

(** Twenty-three aging rows, the first four of them overdue. *)
Definition sampleAging : list PaymentAgingRecord :=
  repeat (agingRow "Acme" 45) 4 ++ repeat (agingRow "Bolt" 10) 19.

(** A value with a comma, a quote and a newline in it. *)
Definition awkwardText : string :=
  "Acme, " ++ String dquote ("Inc" ++ String dquote (String newline "Pune")).

Definition awkwardRows : list Row :=
  [ [("slaType", Val awkwardText); ("breachCount", Val "12");
     ("avgDelayDays", Null)];
    [("slaType", Val "Payment Release"); ("breachCount", Val "3")] ].

(** One row whose only key opens with a quote. *)
Definition quotedKeyRows : list Row := [ [(String dquote "k", Val "v")] ].

(** The filter criteria of each table, and of the page. *)
Definition agingFilters (s : State) : string * string :=
  (agingVendorFilter (aging s), agingStatusFilter (aging s)).
Definition complianceFilters (s : State) : string * string :=
  (complianceVendorFilter (compliance s), complianceFilter (compliance s)).
Definition slaFilters (s : State) : string * string * string :=
  (slaTypeFilter (sla s), slaBreachSeverity (sla s), slaDelaySeverity (sla s)).
Definition filterCriteria (s : State) :=
  (agingFilters s, complianceFilters s, slaFilters s).

Definition currentPages (s : State) : Z * Z * Z :=
  (agingCurrentPage (aging s), complianceCurrentPage (compliance s),
   slaCurrentPage (sla s)).

(** The events of the pagination controls. *)
Definition isPageRequest (ev : Event) : bool :=
  match ev with
  | AgingPageRequested _ | CompliancePageRequested _ | SlaPageRequested _ =>
      true
  | _ => false
  end.

(** The events of the filter bars that leave the page to the effect. *)
Definition isFilterEdit (ev : Event) : bool :=
  match ev with
  | AgingVendorTyped _ | AgingStatusPicked _ | AgingClearAllClicked
  | ComplianceVendorTyped _ | ComplianceLevelPicked _
  | ComplianceClearAllClicked
  | SlaTypePicked _ | SlaBreachSeverityPicked _ | SlaDelaySeverityPicked _
  | SlaClearAllClicked => true
  | _ => false
  end.

Definition isReset (ev : Event) : bool :=
  match ev with
  | AgingResetClicked | ComplianceResetClicked | SlaResetClicked => true
  | _ => false
  end.

(** The events of the filter bars and of the pagination controls. *)
Definition isFilterOrPageEvent (ev : Event) : bool :=
  isFilterEdit ev || isReset ev || isPageRequest ev.

(** The answers that write the summary cells of a source. *)
Definition isSummaryAnswer (ev : Event) : bool :=
  match ev with
  | SummaryFetch true (Fulfilled _) => true
  | _ => false
  end.
Definition isComplianceAnswer (ev : Event) : bool :=
  match ev with
  | ComplianceFetch true (Fulfilled _) => true
  | _ => false
  end.
Definition isSlaAnswer (ev : Event) : bool :=
  match ev with
  | SlaFetch true (Fulfilled _) => true
  | _ => false
  end.

(** The aging response behind [sampleAging]. *)
Definition agingItem (name : string) (days : Q) : Api.AgingItem :=
  {| Api.vendorName := name; Api.outstandingAmount := 1000;
     Api.avgPendingDays := days; Api.oldestInvoiceDate := Some "2024-01-01" |}.

Definition sampleItems : list Api.AgingItem :=
  repeat (agingItem "Acme" 45) 4 ++ repeat (agingItem "Bolt" 10) 19.

Definition sampleNow : Z := 1705314600000.

(** The aging table has loaded and the user has moved to its third page. *)
Definition browsing : State :=
  run isoDateParse
    [AgingFetch true sampleNow (Fulfilled (Some sampleItems));
     AgingPageRequested 3]
    mountedState.

(** A summary arrives, the user picks another range, and the request for
    that range fails. *)
Definition staleSummaryTrace : list Event :=
  [SummaryFetch true
     (Fulfilled (Some {| Api.released := Some 100%Q;
                         Api.pending := Some 50%Q |}));
   TimeRangeClicked monthly;
   SummaryFetch true Rejected].

(** SLA rows for the breach bar. *)
Definition slaRow (name : string) (breaches delay : Q) : SLABreachRecord :=
  {| slaType := name; breachCount := breaches; avgDelayDays := delay |}.

Definition sampleSla : list SLABreachRecord :=
  [slaRow "Invoice Validation" 12 6; slaRow "Payment Release" 3 4;
   slaRow "Delivery Confirmation" 8 2].

Definition complianceRow (name : string) (pct : Q) : ComplianceRecord :=
  {| cVendor := name; totalInvoices := 40; compliantPercentage := pct;
     issuesFound := 2 |}.

(** ** Notions used in the proofs *)

(** [c] occurs in [s]. *)
Fixpoint occurs (c : ascii) (s : string) : bool :=
  match s with
  | EmptyString => false
  | String a r => Ascii.eqb c a || occurs c r
  end.

(** [v] in front of the field being read. *)
Definition prepend (v : string) (p : Partial) : Partial :=
  let '(f, r, rs) := p in (v ++ f, r, rs).

(** A text at whose head a field, or a record, ends. *)
Definition endsField (k : string) : Prop :=
  k = EmptyString \/
  exists c rest, k = String c rest /\ (c = comma \/ c = newline).

Definition endsRecord (k : string) : Prop :=
  k = EmptyString \/ exists rest, k = String newline rest.

(** The records a table of values is read back as. *)
Definition textOf (table : list (list CellValue)) : list (list string) :=
  map (map stringify) table.

Definition valuesLine (values : list CellValue) : string :=
  join (str comma) (map escapeCSV values).

(** * Properties *)

(** ** The derived field *)

Section DaysOldFacts.

Variable Date_parse : string -> TimeValue.

Lemma computeDaysOld_absent (now : Z) :
  computeDaysOld Date_parse now None = JNum 0 /\
  computeDaysOld Date_parse now (Some EmptyString) = JNum 0.
Proof. split; reflexivity. Qed.

Lemma computeDaysOld_parsed (now t : Z) (s : string) :
  s <> EmptyString ->
  Date_parse s = Ms t ->
  computeDaysOld Date_parse now (Some s)
  = JNum (Z.max 0 ((now - t) / 86400000)).
Proof.
  intros Hs Ht. destruct s as [|c r]; [congruence|].
  unfold computeDaysOld. rewrite Ht. reflexivity.
Qed.

Lemma computeDaysOld_parsed_nonneg (now t : Z) (s : string) :
  s <> EmptyString ->
  Date_parse s = Ms t ->
  exists d, computeDaysOld Date_parse now (Some s) = JNum d /\ 0 <= d.
Proof.
  intros Hs Ht. eexists. split.
  - apply computeDaysOld_parsed; eassumption.
  - apply Z.le_max_l.
Qed.

(** C1.  A date string that is present and that [Date] cannot parse does
    not give 0: the invalid date's time is NaN, NaN goes through the
    subtraction, the division, [Math.floor] and [Math.max], and
    [computeDaysOld] returns NaN. *)
Theorem computeDaysOld_unparseable (now : Z) (s : string) :
  s <> EmptyString ->
  Date_parse s = InvalidDate ->
  computeDaysOld Date_parse now (Some s) = JNaN.
Proof.
  intros Hs Hbad. destruct s as [|c r]; [congruence|].
  unfold computeDaysOld. rewrite Hbad. reflexivity.
Qed.

(** A row whose source date is absent has 0 days, an empty date text, and
    is not marked as overdue. *)
Lemma absent_date_row (now : Z) (r : Api.AgingItem) :
  Api.oldestInvoiceDate r = None ->
  oldestInvoiceDays (agingRecord Date_parse now r) = JNum 0 /\
  oldestInvoiceDate (agingRecord Date_parse now r) = EmptyString /\
  invoiceIsOverdue (agingRecord Date_parse now r) = false.
Proof.
  intros Hnone. unfold invoiceIsOverdue, agingRecord.
  cbn [oldestInvoiceDays oldestInvoiceDate]. rewrite Hnone.
  repeat split; reflexivity.
Qed.

End DaysOldFacts.

Lemma computeDaysOld_unparseable_witness :
  "not-a-date" <> EmptyString /\
  isoDateParse "not-a-date" = InvalidDate /\
  computeDaysOld isoDateParse 1705314600000 (Some "not-a-date") = JNaN.
Proof.
  split; [discriminate|]. split; [reflexivity|].
  apply (computeDaysOld_unparseable isoDateParse 1705314600000 "not-a-date");
    [discriminate | reflexivity].
Defined.

Example computeDaysOld_two_weeks :
  computeDaysOld isoDateParse 1705314600000 (Some "2024-01-01") = JNum 14.
Proof. reflexivity. Qed.

Example computeDaysOld_future_date :
  computeDaysOld isoDateParse 1705314600000 (Some "2025-06-30T12:00:00Z")
  = JNum 0.
Proof. reflexivity. Qed.

(** ** Buckets *)

Lemma Qgtb_spec (x y : Q) : Qgtb x y = true <-> (y < x)%Q.
Proof.
  unfold Qgtb. rewrite negb_true_iff. split.
  - intros H. apply Qnot_le_lt. intros Hle.
    apply Qle_bool_iff in Hle. congruence.
  - intros H. destruct (Qle_bool x y) eqn:E; [|reflexivity].
    apply Qle_bool_iff in E. exfalso. exact (Qlt_not_le _ _ H E).
Qed.

Lemma Qleb_Qgtb (x y : Q) : Qleb x y = negb (Qgtb x y).
Proof. unfold Qleb, Qgtb. now rewrite negb_involutive. Qed.

Lemma Qgtb_mono (x a b : Q) : (a <= b)%Q -> Qgtb x b = true -> Qgtb x a = true.
Proof.
  rewrite !Qgtb_spec. intros Hab Hb. eapply Qle_lt_trans; eassumption.
Qed.

Lemma Qleb_spec (x y : Q) : Qleb x y = true <-> (x <= y)%Q.
Proof. unfold Qleb. apply Qle_bool_iff. Qed.

(** C2.  The three status buckets of the aging table are the ranges of
    the claim: a row is overdue exactly when [avgDaysPending > 30], a
    warning exactly when [15 < avgDaysPending <= 30], and good exactly
    when [avgDaysPending <= 15].  They split the number line: every row
    is in exactly one of them; a row at 30 is a warning and is not
    overdue. *)
Theorem aging_status_buckets_partition (row : PaymentAgingRecord) :
  (isOverdue row = true <-> (30 < avgDaysPending row)%Q) /\
  (isWarning row = true <->
   (15 < avgDaysPending row)%Q /\ (avgDaysPending row <= 30)%Q) /\
  (isGood row = true <-> (avgDaysPending row <= 15)%Q) /\
  exactlyOne (isOverdue row) (isWarning row) (isGood row) = true /\
  ((avgDaysPending row == 30)%Q ->
   isWarning row = true /\ isOverdue row = false /\ isGood row = false).
Proof.
  unfold isOverdue, isWarning, isGood, agingStatusMatches, exactlyOne.
  cbn [String.eqb Ascii.eqb Bool.eqb].
  split; [apply Qgtb_spec|].
  split; [rewrite andb_true_iff, Qgtb_spec, Qleb_spec; reflexivity|].
  split; [apply Qleb_spec|].
  rewrite !Qleb_Qgtb.
  split.
  - destruct (Qgtb (avgDaysPending row) 30) eqn:E30;
      destruct (Qgtb (avgDaysPending row) 15) eqn:E15; try reflexivity.
    exfalso. apply (Qgtb_mono _ 15%Q) in E30; [congruence|].
    unfold Qle; simpl; lia.
  - intros H30.
    assert (E30 : Qgtb (avgDaysPending row) 30 = false).
    { destruct (Qgtb (avgDaysPending row) 30) eqn:E; [|reflexivity].
      apply Qgtb_spec in E. rewrite H30 in E.
      exfalso. exact (Qlt_irrefl _ E). }
    assert (E15 : Qgtb (avgDaysPending row) 15 = true).
    { apply Qgtb_spec. rewrite H30. unfold Qlt; simpl; lia. }
    rewrite E30, E15. repeat split; reflexivity.
Qed.

Lemma aging_status_buckets_partition_witness :
  (avgDaysPending (agingRow "Acme" 30) == 30)%Q /\
  isWarning (agingRow "Acme" 30) = true /\
  isOverdue (agingRow "Acme" 30) = false /\
  isGood (agingRow "Acme" 30) = false /\
  (15 < avgDaysPending (agingRow "Acme" 30))%Q /\
  (avgDaysPending (agingRow "Acme" 30) <= 30)%Q.
Proof.
  destruct (aging_status_buckets_partition (agingRow "Acme" 30))
    as (_ & Hwarn & _ & _ & Hat30).
  assert (H30 : (avgDaysPending (agingRow "Acme" 30) == 30)%Q)
    by reflexivity.
  destruct (Hat30 H30) as (Hw & Ho & Hg).
  split; [exact H30|]. split; [exact Hw|]. split; [exact Ho|].
  split; [exact Hg|]. exact (proj1 Hwarn Hw).
Defined.

(** ** The filter engine *)

Lemma filter_filter_and {A : Type} (p q : A -> bool) (l : list A) :
  filter q (filter p l) = filter (fun x => p x && q x) l.
Proof.
  induction l as [|x l IH]; [reflexivity|]. simpl.
  destruct (p x); simpl; [destruct (q x)|]; now rewrite IH.
Qed.

Lemma filterWhen_filter {A : Type} (cond : bool) (p : A -> bool) (l : list A) :
  filterWhen cond p l = filter (fun x => if cond then p x else true) l.
Proof.
  unfold filterWhen. destruct cond; [reflexivity|].
  symmetry. apply filter_true.
Qed.

Lemma truthy_eqb (s : string) : truthy s = negb (String.eqb s EmptyString).
Proof. destruct s; reflexivity. Qed.

Lemma textSlot_code (v name : string) :
  (if truthy v then vendorMatches v name else true) = textSlot v name.
Proof. unfold textSlot. rewrite truthy_eqb. now destruct (String.eqb v _). Qed.

Lemma bucketSlot_code {A : Type} (v : string) (b : string -> A -> bool)
  (row : A) :
  (if negb (isAll v) then b v row else true) = bucketSlot v b row.
Proof. unfold bucketSlot, isAll. now destruct (String.eqb v "all"). Qed.

Lemma filterPaymentAging_slots (v st : string) (data : list PaymentAgingRecord) :
  filterPaymentAging v st data = filter (agingSlots v st) data.
Proof.
  unfold filterPaymentAging. rewrite !filterWhen_filter, filter_filter_and.
  apply filter_ext. intros row. unfold agingSlots.
  now rewrite textSlot_code, bucketSlot_code.
Qed.

Lemma filterCompliance_slots (v lv : string) (data : list ComplianceRecord) :
  filterCompliance v lv data = filter (complianceSlots v lv) data.
Proof.
  unfold filterCompliance. rewrite !filterWhen_filter, filter_filter_and.
  apply filter_ext. intros row. unfold complianceSlots.
  now rewrite textSlot_code, bucketSlot_code.
Qed.

Lemma filterSLABreaches_slots (t b d : string) (data : list SLABreachRecord) :
  filterSLABreaches t b d data = filter (slaSlots t b d) data.
Proof.
  unfold filterSLABreaches. rewrite !filterWhen_filter, !filter_filter_and.
  apply filter_ext. intros row. unfold slaSlots.
  unfold bucketSlot, isAll.
  destruct (String.eqb t "all"), (String.eqb b "all"), (String.eqb d "all");
    cbn [negb];
    destruct (String.eqb (slaType row) t), (breachSeverityMatches b row),
      (delaySeverityMatches d row); reflexivity.
Qed.

(** C4.  Each filter pipeline returns, in the order of its input, exactly
    the rows on which all its slots hold; a slot at its neutral value
    holds of every row, and with every slot neutral the output is the
    input. *)
Theorem filter_engine_conjunction_of_slots :
  (forall v st data,
      filterPaymentAging v st data = filter (agingSlots v st) data) /\
  (forall v lv data,
      filterCompliance v lv data = filter (complianceSlots v lv) data) /\
  (forall t b d data,
      filterSLABreaches t b d data = filter (slaSlots t b d) data) /\
  (forall name, textSlot EmptyString name = true) /\
  (forall A (bucket : string -> A -> bool) row,
      bucketSlot "all" bucket row = true) /\
  (forall data, filterPaymentAging EmptyString "all" data = data) /\
  (forall data, filterCompliance EmptyString "all" data = data) /\
  (forall data, filterSLABreaches "all" "all" "all" data = data).
Proof.
  split; [exact filterPaymentAging_slots|].
  split; [exact filterCompliance_slots|].
  split; [exact filterSLABreaches_slots|].
  repeat split; reflexivity.
Qed.

Lemma filterPaymentAging_In (v st : string) (data : list PaymentAgingRecord)
  (row : PaymentAgingRecord) :
  In row (filterPaymentAging v st data) <->
  In row data /\ agingSlots v st row = true.
Proof. rewrite filterPaymentAging_slots. apply filter_In. Qed.

(** ** Pagination *)

Lemma Math_ceil_div_Zdiv (n p : Z) : Math_ceil_div n p = - ((- n) / p).
Proof.
  unfold Math_ceil_div, Qceiling. rewrite Zdiv_Qdiv. f_equal.
  apply Qfloor_comp. unfold Qdiv. rewrite inject_Z_opp. ring.
Qed.

(** [Math.ceil(n / p)] is the least number of pages of [p] that hold [n]. *)
Lemma Math_ceil_div_spec (n p : Z) :
  0 < p ->
  (Math_ceil_div n p - 1) * p < n <= Math_ceil_div n p * p.
Proof.
  intros Hp. rewrite Math_ceil_div_Zdiv.
  pose proof (Z.div_mod (- n) p ltac:(lia)) as Hdm.
  pose proof (Z.mod_pos_bound (- n) p Hp) as Hm.
  nia.
Qed.

Lemma Math_ceil_div_0 (p : Z) : Math_ceil_div 0 p = 0.
Proof. rewrite Math_ceil_div_Zdiv. change (- 0) with 0. now rewrite Zdiv_0_l. Qed.

Lemma len_nonneg {A : Type} (l : list A) : 0 <= len l.
Proof. unfold len. lia. Qed.

(** What [slice] returns between two indices that are not negative. *)
Lemma slice_nth_error {A : Type} (l : list A) (start stop : Z) (i : nat) :
  0 <= start -> 0 <= stop ->
  nth_error (slice l start stop) i
  = if start + Z.of_nat i <? Z.min stop (len l)
    then nth_error l (Z.to_nat start + i)
    else None.
Proof.
  intros Hs He. unfold slice.
  replace (start <? 0) with false by (symmetry; apply Z.ltb_ge; lia).
  replace (stop <? 0) with false by (symmetry; apply Z.ltb_ge; lia).
  rewrite nth_error_firstn, nth_error_skipn.
  pose proof (len_nonneg l) as Hl.
  destruct (start + Z.of_nat i <? Z.min stop (len l)) eqn:E.
  - apply Z.ltb_lt in E.
    replace (i <? _)%nat with true by (symmetry; apply Nat.ltb_lt; lia).
    f_equal. lia.
  - apply Z.ltb_ge in E.
    destruct (i <? _)%nat eqn:E'; [|reflexivity].
    apply Nat.ltb_lt in E'. apply nth_error_None. unfold len in *. lia.
Qed.

Lemma slice_empty {A : Type} (l : list A) (start stop : Z) :
  0 <= start -> 0 <= stop -> Z.min stop (len l) <= start ->
  slice l start stop = [].
Proof.
  intros Hs He Hout.
  destruct (slice l start stop) as [|x r] eqn:E; [reflexivity|].
  pose proof (slice_nth_error l start stop 0 Hs He) as H0.
  rewrite E in H0. simpl in H0.
  replace (start + 0 <? _) with false in H0
    by (symmetry; apply Z.ltb_ge; lia).
  discriminate.
Qed.

(** C5.  For a page size [p > 0] and a page [k >= 1] over [n] filtered
    rows: the window starts at [(k-1)*p] and ends before
    [min(start+p, n)], the visible slice holds exactly the rows at the
    indices of the window, the page count is the ceiling of [n/p] (0 for
    no rows), and a start at or past [n] gives the empty slice. *)
Theorem pagination_window {A : Type} (p k : Z) (l : list A) :
  0 < p -> 1 <= k ->
  let n := len l in
  let start := (k - 1) * p in
  let stop := Z.min (start + p) n in
  startIndex p k = start /\
  endIndex p l k = stop /\
  (forall i : nat,
      nth_error (paginated p l k) i
      = if start + Z.of_nat i <? stop
        then nth_error l (Z.to_nat start + i) else None) /\
  (totalPages p l - 1) * p < n <= totalPages p l * p /\
  (n = 0 -> totalPages p l = 0) /\
  (n <= start -> paginated p l k = []).
Proof.
  intros Hp Hk n start stop.
  assert (Hstart : 0 <= start) by (unfold start; nia).
  pose proof (len_nonneg l) as Hl. fold n in Hl.
  assert (Hstop : 0 <= stop) by (unfold stop; lia).
  split; [reflexivity|]. split; [reflexivity|].
  split.
  - intros i. unfold paginated, endIndex, startIndex. fold start n stop.
    rewrite slice_nth_error by assumption. fold n.
    replace (Z.min stop n) with stop by (unfold stop; lia). reflexivity.
  - split; [apply Math_ceil_div_spec; assumption|].
    split.
    + intros Hn. unfold totalPages. fold n. rewrite Hn.
      apply Math_ceil_div_0.
    + intros Hout. unfold paginated, endIndex, startIndex. fold start n stop.
      apply slice_empty; try assumption. fold n. lia.
Qed.

Lemma pagination_window_witness :
  0 < 10 /\ 1 <= 3 /\
  startIndex 10 3 = 20 /\
  endIndex 10 sampleAging 3 = 23 /\
  totalPages 10 sampleAging = 3 /\
  List.length (paginated 10 sampleAging 3) = 3%nat /\
  nth_error (paginated 10 sampleAging 3) 0 = nth_error sampleAging 20.
Proof.
  pose proof (pagination_window 10 3 sampleAging ltac:(lia) ltac:(lia)) as H.
  cbv zeta in H. destruct H as (Hs & He & Hnth & _).
  split; [lia|]. split; [lia|].
  split; [exact Hs|]. split; [exact He|].
  split; [reflexivity|]. split; [reflexivity|].
  exact (Hnth 0%nat).
Defined.

(** ** The CSV export *)

Lemma append_nil_r (s : string) : s ++ EmptyString = s.
Proof. induction s as [|c s IH]; [reflexivity|]. simpl. now rewrite IH. Qed.

Lemma append_assoc (a b c : string) : (a ++ b) ++ c = a ++ (b ++ c).
Proof. induction a as [|x a IH]; [reflexivity|]. simpl. now rewrite IH. Qed.

Lemma append_cons_not_empty (a : string) (c : ascii) (b : string) :
  a ++ String c b <> EmptyString.
Proof. destruct a; discriminate. Qed.

Lemma join_cons (sep x : string) (l : list string) :
  join sep (x :: l) = x ++ String.concat EmptyString (map (append sep) l).
Proof.
  revert x. induction l as [|y l IH]; intros x.
  - simpl. now rewrite append_nil_r.
  - change (join sep (x :: y :: l)) with (x ++ sep ++ join sep (y :: l)).
    rewrite IH. cbn [map String.concat].
    destruct l as [|z l].
    + simpl. now rewrite !append_nil_r.
    + cbn [map]. now rewrite append_assoc.
Qed.

Lemma toCSV_cons (row : Row) (rest : list Row)
  (headerOrder : option (list string)) :
  toCSV (row :: rest) headerOrder
  = join (str comma) (csvHeaders (row :: rest) headerOrder) ++
    String.concat EmptyString
      (map (fun r => str newline ++
              recordLine (csvHeaders (row :: rest) headerOrder) r)
         (row :: rest)).
Proof. unfold toCSV. rewrite join_cons, map_map. reflexivity. Qed.

Lemma toCSV_empty_iff (rows : list Row) (headerOrder : option (list string)) :
  toCSV rows headerOrder = EmptyString <-> rows = [].
Proof.
  split.
  - destruct rows as [|row rest]; [reflexivity|].
    rewrite toCSV_cons. cbn [map String.concat]. intros H. exfalso.
    destruct rest; cbn [map] in H; simpl in H;
      exact (append_cons_not_empty _ _ _ H).
  - intros ->. reflexivity.
Qed.

Lemma map_empty_iff {A B : Type} (f : A -> B) (l : list A) :
  map f l = [] <-> l = [].
Proof. destruct l; split; intros H; try reflexivity; discriminate. Qed.

Section ExportFacts.

Variable Number_toString : Q -> string.

(** C7.  [toCSV] returns the empty string exactly when there is no row;
    for at least one row it returns the header line followed, for each
    row in order, by a newline and that row's record line.  So the export
    of each report table is empty exactly when its filtered rows are. *)
Theorem toCSV_empty_iff_no_rows (rows : list Row)
  (headerOrder : option (list string)) (s : State) :
  (toCSV rows headerOrder = EmptyString <-> rows = []) /\
  (forall row rest,
      let headers := csvHeaders (row :: rest) headerOrder in
      toCSV (row :: rest) headerOrder
      = join (str comma) headers ++
        String.concat EmptyString
          (map (fun r => str newline ++ recordLine headers r) (row :: rest))) /\
  (handleAgingExportCSV Number_toString s = EmptyString <->
   filteredPaymentAging s = []) /\
  (handleComplianceExportCSV Number_toString s = EmptyString <->
   filteredCompliance s = []) /\
  (handleSlaExportCSV Number_toString s = EmptyString <->
   filteredSLABreaches s = []).
Proof.
  split; [apply toCSV_empty_iff|].
  split; [intros row rest; apply toCSV_cons|].
  unfold handleAgingExportCSV, handleComplianceExportCSV, handleSlaExportCSV.
  rewrite !toCSV_empty_iff, !map_empty_iff.
  repeat split; trivial.
Qed.

End ExportFacts.

(** *** Reading an export back *)

Lemma includes_char (c : ascii) (s : string) :
  includes s (str c) = occurs c s.
Proof.
  induction s as [|a s IH]; [reflexivity|].
  cbn [includes occurs]. rewrite IH. unfold str. cbn [String.prefix].
  destruct (ascii_dec c a) as [->|Hne].
  - rewrite Ascii.eqb_refl. now destruct s.
  - apply Ascii.eqb_neq in Hne. now rewrite Hne.
Qed.

Lemma needsQuotes_false (s : string) :
  needsQuotes s = false ->
  occurs comma s = false /\ occurs dquote s = false /\
  occurs newline s = false.
Proof.
  unfold needsQuotes. rewrite !includes_char.
  destruct (occurs comma s), (occurs dquote s), (occurs newline s);
    simpl; intros H; try discriminate; auto.
Qed.

Lemma fieldBreak_other (c : ascii) (p : Partial) :
  Ascii.eqb comma c = false -> Ascii.eqb newline c = false ->
  fieldBreak c p = None.
Proof.
  intros Hc Hn. unfold fieldBreak.
  rewrite (Ascii.eqb_sym c comma), Hc, (Ascii.eqb_sym c newline), Hn.
  reflexivity.
Qed.

Lemma fieldBreak_some (c : ascii) (p : Partial) :
  c = comma \/ c = newline -> exists q, fieldBreak c p = Some q.
Proof.
  intros [-> | ->]; unfold fieldBreak; simpl; eauto.
Qed.

(** Where a field ends, the reader is in the same position whether the
    field was bare or has just closed its quotes. *)
Lemma scan_at_break (k : string) :
  endsField k ->
  scan InBare k = scan AtStart k /\ scan AfterQuote k = scan AtStart k.
Proof.
  intros [-> | (c & rest & -> & Hc)]; [split; reflexivity|].
  assert (Hq : Ascii.eqb c dquote = false)
    by (destruct Hc as [-> | ->]; reflexivity).
  destruct (fieldBreak_some c (scan AtStart rest) Hc) as [q Hb].
  cbn [scan]. rewrite Hq, Hb. split; reflexivity.
Qed.

Lemma prepend_addChar (c : ascii) (v : string) (p : Partial) :
  addChar c (prepend v p) = prepend (String c v) p.
Proof. destruct p as [[f r] rs]. reflexivity. Qed.

Lemma prepend_empty (p : Partial) : prepend EmptyString p = p.
Proof. destruct p as [[f r] rs]. reflexivity. Qed.

Lemma scan_bare (v k : string) :
  occurs comma v = false -> occurs newline v = false -> endsField k ->
  scan InBare (v ++ k) = prepend v (scan AtStart k).
Proof.
  intros Hc Hn Hk. induction v as [|c v IH].
  - simpl. rewrite prepend_empty. apply scan_at_break, Hk.
  - cbn [occurs] in Hc, Hn.
    apply orb_false_iff in Hc as [Hc Hc'], Hn as [Hn Hn'].
    cbn [append scan]. rewrite fieldBreak_other by assumption.
    rewrite IH by assumption. apply prepend_addChar.
Qed.

Lemma scan_plain (v k : string) :
  needsQuotes v = false -> endsField k ->
  scan AtStart (v ++ k) = prepend v (scan AtStart k).
Proof.
  intros Hv Hk. apply needsQuotes_false in Hv as (Hc & Hq & Hn).
  destruct v as [|c v].
  - simpl. now rewrite prepend_empty.
  - cbn [occurs] in Hc, Hq, Hn.
    apply orb_false_iff in Hc as [Hc Hc'], Hq as [Hq Hq'], Hn as [Hn Hn'].
    cbn [append scan]. rewrite (Ascii.eqb_sym c dquote), Hq.
    rewrite fieldBreak_other by assumption.
    rewrite scan_bare by assumption. apply prepend_addChar.
Qed.

Lemma scan_quoted (v k : string) :
  endsField k ->
  scan InQuoted (doubleQuotes v ++ str dquote ++ k)
  = prepend v (scan AtStart k).
Proof.
  intros Hk. induction v as [|c v IH].
  - cbn [doubleQuotes append str scan]. simpl.
    rewrite prepend_empty. apply scan_at_break, Hk.
  - cbn [doubleQuotes]. destruct (Ascii.eqb c dquote) eqn:E.
    + apply Ascii.eqb_eq in E. subst c.
      cbn [append scan]. rewrite ?Ascii.eqb_refl. cbn [scan].
      rewrite ?Ascii.eqb_refl, IH. apply prepend_addChar.
    + cbn [append scan]. rewrite E, IH. apply prepend_addChar.
Qed.

(** One escaped value, followed by the end of its field, is read back as
    the value. *)
Lemma scan_escaped (val : CellValue) (k : string) :
  endsField k ->
  scan AtStart (escapeCSV val ++ k)
  = prepend (stringify val) (scan AtStart k).
Proof.
  intros Hk. unfold escapeCSV.
  destruct (needsQuotes (stringify val)) eqn:E.
  - rewrite !append_assoc. change (str dquote ++ ?x) with (String dquote x).
    cbn [scan]. rewrite Ascii.eqb_refl.
    change (String dquote k) with (str dquote ++ k).
    now apply scan_quoted.
  - now apply scan_plain.
Qed.

Lemma scan_end_of_record (k : string) :
  endsRecord k ->
  scan AtStart k = (EmptyString, [], snd (scan AtStart k)).
Proof.
  intros [-> | (rest & ->)]; [reflexivity|].
  cbn [scan]. change (Ascii.eqb newline dquote) with false.
  unfold fieldBreak. change (Ascii.eqb newline comma) with false.
  rewrite Ascii.eqb_refl. cbv iota.
  destruct (scan AtStart rest) as [[f r] rs]. reflexivity.
Qed.

Lemma endsRecord_endsField (k : string) : endsRecord k -> endsField k.
Proof.
  intros [-> | (rest & ->)]; [now left|].
  right. exists newline, rest. auto.
Qed.

(** A record line, followed by the end of its record, is read back as the
    strings of its values. *)
Lemma scan_valuesLine (v : CellValue) (vs : list CellValue) (k : string) :
  endsRecord k ->
  scan AtStart (valuesLine (v :: vs) ++ k)
  = (stringify v, map stringify vs, snd (scan AtStart k)).
Proof.
  intros Hk. revert v. induction vs as [|w vs IH]; intros v.
  - unfold valuesLine. cbn [map join].
    rewrite scan_escaped by now apply endsRecord_endsField.
    rewrite (scan_end_of_record k Hk). cbn [prepend snd map].
    now rewrite append_nil_r.
  - unfold valuesLine in *. cbn [map] in *.
    change (join (str comma) (escapeCSV v :: escapeCSV w :: map escapeCSV vs))
      with (escapeCSV v ++ str comma ++
            join (str comma) (escapeCSV w :: map escapeCSV vs)).
    rewrite !append_assoc.
    rewrite scan_escaped
      by (right; exists comma; eexists; split; [reflexivity | now left]).
    change (str comma ++ ?x) with (String comma x).
    cbn [scan]. change (Ascii.eqb comma dquote) with false.
    unfold fieldBreak. rewrite Ascii.eqb_refl. cbv iota.
    rewrite IH. cbn [endField prepend map]. now rewrite append_nil_r.
Qed.

(** A table with at least one column, written line by line, is read back
    as the strings of its values. *)
Lemma parseCSV_lines (table : list (list CellValue)) :
  table <> [] ->
  Forall (fun values => values <> []) table ->
  parseCSV (join (str newline) (map valuesLine table)) = textOf table.
Proof.
  intros Hne Hcols. unfold parseCSV.
  enough (H : forall v vs rest,
             Forall (fun values => values <> []) rest ->
             scan AtStart (join (str newline)
                             (map valuesLine ((v :: vs) :: rest)))
             = (stringify v, map stringify vs, textOf rest)).
  { destruct table as [|[|v vs] rest]; [congruence | | ].
    - inversion Hcols; congruence.
    - inversion Hcols; subst. rewrite H by assumption. reflexivity. }
  clear. intros v vs rest. revert v vs.
  induction rest as [|next rest IH]; intros v vs Hcols.
  - cbn [map join].
    rewrite <- (append_nil_r (valuesLine (v :: vs))).
    rewrite scan_valuesLine by now left. reflexivity.
  - inversion Hcols as [|? ? Hnext Hrest]; subst.
    destruct next as [|w ws]; [congruence|].
    cbn [map].
    change (join (str newline)
              (valuesLine (v :: vs) :: valuesLine (w :: ws)
                 :: map valuesLine rest))
      with (valuesLine (v :: vs) ++ str newline ++
            join (str newline) (map valuesLine ((w :: ws) :: rest))).
    rewrite scan_valuesLine by (right; eexists; reflexivity).
    change (str newline ++ ?x) with (String newline x).
    cbn [scan]. change (Ascii.eqb newline dquote) with false.
    unfold fieldBreak. change (Ascii.eqb newline comma) with false.
    rewrite Ascii.eqb_refl. cbv iota.
    rewrite IH by assumption. reflexivity.
Qed.

(** The serialization rule of one value. *)
Lemma escapeCSV_rule (s : string) :
  escapeCSV Undefined = EmptyString /\
  escapeCSV Null = EmptyString /\
  escapeCSV (Val s)
  = if occurs comma s || occurs dquote s || occurs newline s
    then str dquote ++ doubleQuotes s ++ str dquote
    else s.
Proof.
  repeat split. unfold escapeCSV, needsQuotes. cbn [stringify].
  now rewrite !includes_char.
Qed.

Lemma valuesLine_plain (headers : list string) :
  Forall plainHeader headers ->
  join (str comma) headers = valuesLine (map Val headers).
Proof.
  intros Hplain. unfold valuesLine. f_equal. rewrite map_map.
  rewrite <- (map_id headers) at 1. apply map_ext_in. intros h Hin.
  rewrite Forall_forall in Hplain. specialize (Hplain h Hin).
  unfold escapeCSV, plainHeader in *. cbn [stringify]. now rewrite Hplain.
Qed.

Lemma recordLine_valuesLine (headers : list string) (row : Row) :
  recordLine headers row = valuesLine (map (getProp row) headers).
Proof. unfold recordLine, valuesLine. now rewrite map_map. Qed.

Lemma toCSV_lines (rows : list Row) (headerOrder : option (list string)) :
  rows <> [] ->
  toCSV rows headerOrder
  = join (str newline)
      (join (str comma) (csvHeaders rows headerOrder) ::
       map (recordLine (csvHeaders rows headerOrder)) rows).
Proof. destruct rows; [congruence | reflexivity]. Qed.

(** The whole export, read back: the header row, then one record of
    strings per row. *)
Lemma parseCSV_toCSV (rows : list Row) (headerOrder : option (list string)) :
  rows <> [] ->
  csvHeaders rows headerOrder <> [] ->
  Forall plainHeader (csvHeaders rows headerOrder) ->
  parseCSV (toCSV rows headerOrder)
  = csvHeaders rows headerOrder ::
    map (fun row =>
           map (fun h => stringify (getProp row h))
             (csvHeaders rows headerOrder)) rows.
Proof.
  intros Hrows Hcols Hplain. rewrite toCSV_lines by assumption.
  set (headers := csvHeaders rows headerOrder) in *.
  assert (Hcsv : join (str comma) headers :: map (recordLine headers) rows
                 = map valuesLine
                     (map Val headers ::
                      map (fun r => map (getProp r) headers) rows)).
  { cbn [map]. rewrite valuesLine_plain by assumption. f_equal.
    rewrite map_map. apply map_ext. intros r. apply recordLine_valuesLine. }
  rewrite Hcsv, parseCSV_lines.
  - unfold textOf. cbn [map]. f_equal.
    + rewrite map_map. cbn [stringify]. apply map_id.
    + rewrite map_map. apply map_ext. intros r. now rewrite map_map.
  - discriminate.
  - constructor.
    + destruct headers; [congruence | discriminate].
    + apply Forall_forall. intros values Hin.
      apply in_map_iff in Hin as (r & <- & _).
      destruct headers; [congruence | discriminate].
Qed.

Lemma cellAt_rows (headers : list string) (rows : list Row) (i j : nat)
  (row : Row) (h : string) :
  nth_error rows i = Some row ->
  nth_error headers j = Some h ->
  cellAt
    (headers ::
     map (fun r => map (fun k => stringify (getProp r k)) headers) rows)
    (S i) j
  = Some (stringify (getProp row h)).
Proof.
  intros Hi Hj. unfold cellAt. cbn [nth_error].
  rewrite (map_nth_error _ _ _ Hi).
  exact (map_nth_error (fun k => stringify (getProp row k)) _ _ Hj).
Qed.

(** C6, as the code has it.  When no header name contains a comma, a
    quote or a newline, reading an export back gives every field value of
    every row exactly as [toCSV] stringified it ([null] and [undefined]
    as the empty string), whatever commas, quotes and newlines the values
    contain.  Header names are written without escaping. *)
Theorem toCSV_round_trip (rows : list Row)
  (headerOrder : option (list string)) :
  Forall plainHeader (csvHeaders rows headerOrder) ->
  RoundTrips rows headerOrder.
Proof.
  intros Hplain i j row h Hi Hj.
  assert (Hrows : rows <> []) by (intros ->; destruct i; discriminate).
  assert (Hcols : csvHeaders rows headerOrder <> [])
    by (intros E; rewrite E in Hj; destruct j; discriminate).
  rewrite (parseCSV_toCSV rows headerOrder Hrows Hcols Hplain).
  now apply cellAt_rows.
Qed.

Lemma toCSV_round_trip_witness :
  Forall plainHeader (csvHeaders awkwardRows (Some slaHeaders)) /\
  RoundTrips awkwardRows (Some slaHeaders).
Proof.
  assert (H : Forall plainHeader (csvHeaders awkwardRows (Some slaHeaders)))
    by (repeat constructor).
  split; [exact H|].
  exact (toCSV_round_trip awkwardRows (Some slaHeaders) H).
Defined.

Example awkward_value_read_back :
  cellAt (parseCSV (toCSV awkwardRows (Some slaHeaders))) 1 0
  = Some awkwardText.
Proof. reflexivity. Qed.

(** C6, as stated, fails: a row whose key opens with a quote gives a
    header line that the reader takes for the start of a quoted field, and
    the value of the row is not read back. *)
Lemma toCSV_quoted_key_not_read_back : ~ RoundTrips quotedKeyRows None.
Proof.
  intros H.
  specialize (H 0%nat 0%nat [(String dquote "k", Val "v")]
                (String dquote "k") eq_refl eq_refl).
  vm_compute in H. discriminate.
Qed.

Example toCSV_quoted_key_text :
  toCSV quotedKeyRows None = String dquote ("k" ++ String newline "v") /\
  parseCSV (toCSV quotedKeyRows None) = [["k" ++ String newline "v"]].
Proof. split; reflexivity. Qed.

(** The three report tables pass plain header names, so their exports are
    read back for every row set. *)
Lemma report_exports_round_trip (rows : list Row) (headers : list string) :
  In headers [agingHeaders; complianceHeaders; slaHeaders] ->
  RoundTrips rows (Some headers).
Proof.
  intros Hin i j row h Hi Hj.
  assert (Hrows : rows <> []) by (intros ->; destruct i; discriminate).
  assert (Hplain : Forall plainHeader headers).
  { destruct Hin as [<- | [<- | [<- | []]]]; repeat constructor. }
  assert (Hsame : csvHeaders rows (Some headers) = headers).
  { destruct Hin as [<- | [<- | [<- | []]]]; reflexivity. }
  rewrite parseCSV_toCSV; rewrite ?Hsame in *; try assumption.
  - now apply cellAt_rows.
  - destruct Hin as [<- | [<- | [<- | []]]]; discriminate.
Qed.

Section ExportsReadBack.

Variable Number_toString : Q -> string.

(** The aging export, read back, is the header row and the five texts of
    each filtered row. *)
Lemma aging_export_read_back (s : State) :
  filteredPaymentAging s <> [] ->
  parseCSV (handleAgingExportCSV Number_toString s)
  = agingHeaders ::
    map (fun r => [vendor r;
                   Number_toString (outstandingAmount r);
                   Number_toString (avgDaysPending r);
                   oldestInvoiceDate r;
                   JsNum_toString Number_toString (oldestInvoiceDays r)])
      (filteredPaymentAging s).
Proof.
  intros Hrows. unfold handleAgingExportCSV.
  rewrite parseCSV_toCSV.
  - cbn [csvHeaders agingHeaders]. f_equal. rewrite map_map.
    apply map_ext. intros r. reflexivity.
  - now rewrite map_empty_iff.
  - discriminate.
  - repeat constructor.
Qed.

Lemma sla_export_read_back (s : State) :
  filteredSLABreaches s <> [] ->
  parseCSV (handleSlaExportCSV Number_toString s)
  = slaHeaders ::
    map (fun r => [slaType r;
                   Number_toString (breachCount r);
                   Number_toString (avgDelayDays r)])
      (filteredSLABreaches s).
Proof.
  intros Hrows. unfold handleSlaExportCSV.
  rewrite parseCSV_toCSV.
  - cbn [csvHeaders slaHeaders]. f_equal. rewrite map_map.
    apply map_ext. intros r. reflexivity.
  - now rewrite map_empty_iff.
  - discriminate.
  - repeat constructor.
Qed.

End ExportsReadBack.

(** ** The component *)

Ltac open_state s :=
  destruct s as [tr ld [avf asf ad ap] [cvf cf cd oc cp]
                   [stf sbs sds sd tb ad' sp] pr pp ch].

Ltac unfold_step :=
  unfold renders, settle, firstRender, handle, thenFinally, thenCatch,
    onAging, onCompliance, onSla, onSummary, onTrends, runEffects,
    agingFiltersChanged, complianceFiltersChanged, slaFiltersChanged,
    filterCriteria, agingFilters, complianceFilters, slaFilters,
    currentPages in *.

Ltac split_event ev Hev :=
  destruct ev; try discriminate Hev;
  repeat match goal with
    | m : bool |- _ => destruct m
    | r : Settled _ |- _ => destruct r
    end;
  try discriminate Hev.

Ltac split_ifs :=
  repeat match goal with
    | |- context [if ?b then _ else _] => destruct b
    end.

Lemma timeRangeEqb_refl (r : TimeRange) : timeRangeEqb r r = true.
Proof. destruct r; reflexivity. Qed.

Ltac step_simpl :=
  cbn; rewrite ?String.eqb_refl, ?timeRangeEqb_refl; cbn.

Section ComponentFacts.

Variable Date_parse : string -> TimeValue.

Lemma agingFiltersChanged_iff (prev cur : State) :
  agingFiltersChanged prev cur = true <-> agingFilters cur <> agingFilters prev.
Proof.
  unfold agingFiltersChanged, agingFilters.
  destruct (String.eqb_spec (agingVendorFilter (aging prev))
              (agingVendorFilter (aging cur))) as [-> | Hv];
    destruct (String.eqb_spec (agingStatusFilter (aging prev))
                (agingStatusFilter (aging cur))) as [-> | Hs];
    cbn; split; intros H; try congruence; try reflexivity;
    intros E; injection E; congruence.
Qed.

Lemma complianceFiltersChanged_iff (prev cur : State) :
  complianceFiltersChanged prev cur = true <->
  complianceFilters cur <> complianceFilters prev.
Proof.
  unfold complianceFiltersChanged, complianceFilters.
  destruct (String.eqb_spec (complianceVendorFilter (compliance prev))
              (complianceVendorFilter (compliance cur))) as [-> | Hv];
    destruct (String.eqb_spec (complianceFilter (compliance prev))
                (complianceFilter (compliance cur))) as [-> | Hs];
    cbn; split; intros H; try congruence; try reflexivity;
    intros E; injection E; congruence.
Qed.

Lemma slaFiltersChanged_iff (prev cur : State) :
  slaFiltersChanged prev cur = true <-> slaFilters cur <> slaFilters prev.
Proof.
  unfold slaFiltersChanged, slaFilters.
  destruct (String.eqb_spec (slaTypeFilter (sla prev))
              (slaTypeFilter (sla cur))) as [-> | Ht];
    destruct (String.eqb_spec (slaBreachSeverity (sla prev))
                (slaBreachSeverity (sla cur))) as [-> | Hb];
    destruct (String.eqb_spec (slaDelaySeverity (sla prev))
                (slaDelaySeverity (sla cur))) as [-> | Hd];
    cbn; split; intros H; try congruence; try reflexivity;
    intros E; injection E; congruence.
Qed.

(** What the effects leave alone, and what they do to the pages. *)
Lemma runEffects_frame (prev cur : State) :
  filterCriteria (runEffects prev cur) = filterCriteria cur /\
  timeRange (runEffects prev cur) = timeRange cur /\
  agingData (aging (runEffects prev cur)) = agingData (aging cur) /\
  complianceData (compliance (runEffects prev cur))
  = complianceData (compliance cur) /\
  slaBreachData (sla (runEffects prev cur)) = slaBreachData (sla cur).
Proof.
  unfold runEffects.
  destruct (agingFiltersChanged prev cur),
    (complianceFiltersChanged prev cur), (slaFiltersChanged prev cur),
    (negb (timeRangeEqb (timeRange prev) (timeRange cur)));
    repeat split; reflexivity.
Qed.

Lemma runEffects_pages (prev cur : State) :
  agingCurrentPage (aging (runEffects prev cur))
  = (if agingFiltersChanged prev cur then 1
     else agingCurrentPage (aging cur)) /\
  complianceCurrentPage (compliance (runEffects prev cur))
  = (if complianceFiltersChanged prev cur then 1
     else complianceCurrentPage (compliance cur)) /\
  slaCurrentPage (sla (runEffects prev cur))
  = (if slaFiltersChanged prev cur then 1 else slaCurrentPage (sla cur)).
Proof.
  unfold runEffects.
  destruct (agingFiltersChanged prev cur),
    (complianceFiltersChanged prev cur), (slaFiltersChanged prev cur),
    (negb (timeRangeEqb (timeRange prev) (timeRange cur)));
    repeat split; reflexivity.
Qed.

(** No effect is due after the second render: the state has settled. *)
Lemma settle_is_stable (ev : Event) (s : State) :
  runEffects (firstRender Date_parse ev s) (settle Date_parse ev s) = settle Date_parse ev s.
Proof.
  unfold settle.
  set (s1 := firstRender Date_parse ev s). set (s2 := runEffects s s1).
  destruct (runEffects_frame s s1) as (Hf & Ht & _). fold s2 in Hf, Ht.
  unfold filterCriteria in Hf.
  assert (Ha : agingFilters s2 = agingFilters s1) by congruence.
  assert (Hc : complianceFilters s2 = complianceFilters s1) by congruence.
  assert (Hs : slaFilters s2 = slaFilters s1) by congruence.
  unfold runEffects.
  replace (agingFiltersChanged s1 s2) with false.
  2:{ symmetry. apply not_true_is_false. rewrite agingFiltersChanged_iff.
      congruence. }
  replace (complianceFiltersChanged s1 s2) with false.
  2:{ symmetry. apply not_true_is_false. rewrite complianceFiltersChanged_iff.
      congruence. }
  replace (slaFiltersChanged s1 s2) with false.
  2:{ symmetry. apply not_true_is_false. rewrite slaFiltersChanged_iff.
      congruence. }
  now rewrite Ht, timeRangeEqb_refl.
Qed.

Lemma page_request_keeps_filters (ev : Event) (s r : State) :
  isPageRequest ev = true -> In r (renders Date_parse ev s) ->
  filterCriteria r = filterCriteria s.
Proof.
  intros Hev Hin. open_state s.
  destruct ev; try discriminate Hev;
    (destruct Hin as [<- | [<- | []]]; unfold_step; step_simpl; reflexivity).
Qed.

Lemma filter_edit_keeps_pages (ev : Event) (s : State) :
  isFilterEdit ev = true ->
  currentPages (firstRender Date_parse ev s) = currentPages s.
Proof.
  intros Hev. open_state s. destruct ev; try discriminate Hev; reflexivity.
Qed.

Lemma reset_sets_page (s : State) :
  agingCurrentPage (aging (firstRender Date_parse AgingResetClicked s)) = 1 /\
  complianceCurrentPage (compliance (firstRender Date_parse ComplianceResetClicked s))
  = 1 /\
  slaCurrentPage (sla (firstRender Date_parse SlaResetClicked s)) = 1.
Proof. open_state s. repeat split; reflexivity. Qed.

(** C3, as the code has it.  An edit of a filter slot leaves every current
    page as it is in the render that follows the edit; once that render is
    committed, the page-reset effect of the table whose filters changed
    sets its current page to 1, which the next render windows.  The Reset
    buttons set the page to 1 with the filters.  A page request changes
    no filter criteria in any render. *)
Theorem page_reset_follows_filter_change (ev : Event) (s : State) :
  (isFilterEdit ev = true ->
   currentPages (firstRender Date_parse ev s) = currentPages s) /\
  (agingFilters (firstRender Date_parse ev s) <> agingFilters s ->
   agingCurrentPage (aging (settle Date_parse ev s)) = 1) /\
  (complianceFilters (firstRender Date_parse ev s) <> complianceFilters s ->
   complianceCurrentPage (compliance (settle Date_parse ev s)) = 1) /\
  (slaFilters (firstRender Date_parse ev s) <> slaFilters s ->
   slaCurrentPage (sla (settle Date_parse ev s)) = 1) /\
  agingCurrentPage (aging (firstRender Date_parse AgingResetClicked s)) = 1 /\
  complianceCurrentPage (compliance (firstRender Date_parse ComplianceResetClicked s))
  = 1 /\
  slaCurrentPage (sla (firstRender Date_parse SlaResetClicked s)) = 1 /\
  (isPageRequest ev = true ->
   forall r, In r (renders Date_parse ev s) -> filterCriteria r = filterCriteria s).
Proof.
  destruct (runEffects_pages s (firstRender Date_parse ev s)) as (Ha & Hc & Hs).
  split; [apply filter_edit_keeps_pages|].
  split.
  { intros H. apply agingFiltersChanged_iff in H.
    unfold settle. now rewrite Ha, H. }
  split.
  { intros H. apply complianceFiltersChanged_iff in H.
    unfold settle. now rewrite Hc, H. }
  split.
  { intros H. apply slaFiltersChanged_iff in H.
    unfold settle. now rewrite Hs, H. }
  destruct (reset_sets_page s) as (R1 & R2 & R3).
  repeat (split; [assumption|]).
  intros Hev r Hin. eapply page_request_keeps_filters; eassumption.
Qed.

End ComponentFacts.

Lemma page_reset_follows_filter_change_witness :
  let ev := AgingStatusPicked "overdue" in
  isFilterEdit ev = true /\
  agingFilters (firstRender isoDateParse ev browsing) <> agingFilters browsing /\
  currentPages (firstRender isoDateParse ev browsing) = currentPages browsing /\
  agingCurrentPage (aging (settle isoDateParse ev browsing)) = 1 /\
  isPageRequest (AgingPageRequested 2) = true /\
  filterCriteria (settle isoDateParse (AgingPageRequested 2) browsing)
  = filterCriteria browsing.
Proof.
  intros ev.
  assert (Hne : agingFilters (firstRender isoDateParse ev browsing)
                <> agingFilters browsing) by (vm_compute; discriminate).
  destruct (page_reset_follows_filter_change isoDateParse ev browsing)
    as (Hkeep & Hreset & _).
  destruct (page_reset_follows_filter_change isoDateParse
              (AgingPageRequested 2) browsing) as (_ & _ & _ & _ & _ & _ & _ & Hpage).
  split; [reflexivity|]. split; [exact Hne|].
  split; [exact (Hkeep eq_refl)|]. split; [exact (Hreset Hne)|].
  split; [reflexivity|].
  apply (Hpage eq_refl). right. left. reflexivity.
Defined.

(** C3, as stated, fails: on page 3 of 23 aging rows, picking the status
    [overdue] (4 rows) is followed by a render that still windows page 3,
    and shows no row; only the render after it windows page 1. *)
Lemma window_read_before_page_reset :
  let s1 := firstRender isoDateParse (AgingStatusPicked "overdue") browsing in
  let s2 := settle isoDateParse (AgingStatusPicked "overdue") browsing in
  agingFilters s1 <> agingFilters browsing /\
  agingCurrentPage (aging s1) = 3 /\
  agingCurrentPage (aging s1) <> 1 /\
  List.length (filteredPaymentAging s1) = 4%nat /\
  paginatedPaymentAging s1 = [] /\
  agingCurrentPage (aging s2) = 1 /\
  paginatedPaymentAging s2 = filteredPaymentAging s2.
Proof.
  cbv zeta. split; [vm_compute; discriminate|].
  split; [reflexivity|]. split; [vm_compute; discriminate|].
  repeat split; reflexivity.
Qed.

Example overdue_filter_scenario :
  let s := settle isoDateParse (AgingStatusPicked "overdue") browsing in
  List.length (agingData (aging s)) = 23%nat /\
  List.length (filteredPaymentAging s) = 4%nat /\
  agingTotalPages s = 1 /\
  List.length (paginatedPaymentAging s) = 4%nat /\
  agingStartIndex s = 0 /\ agingEndIndex s = 4.
Proof. cbv zeta. repeat split; reflexivity. Qed.

(** ** Summary metrics *)

Lemma fold_left_sumQ {A : Type} (f : A -> Q) (l : list A) (acc : Q) :
  (fold_left (fun sum item => sum + f item) l acc == acc + sumQ (map f l))%Q.
Proof.
  revert acc. induction l as [|x l IH]; intros acc; cbn [fold_left map sumQ].
  - ring.
  - rewrite IH. ring.
Qed.

Lemma totalOutstanding_sum (s : State) :
  (Metrics.totalOutstanding (summaryMetrics s)
   == sumQ (map outstandingAmount (agingData (aging s))))%Q.
Proof.
  unfold summaryMetrics. cbn [Metrics.totalOutstanding].
  rewrite fold_left_sumQ. ring.
Qed.

Section SummaryFacts.

Variable Date_parse : string -> TimeValue.

Lemma summaryMetrics_frame (ev : Event) (s r : State) :
  isFilterOrPageEvent ev = true -> In r (renders Date_parse ev s) ->
  summaryMetrics r = summaryMetrics s.
Proof.
  intros Hev Hin. open_state s.
  destruct ev; try discriminate Hev;
    (destruct Hin as [<- | [<- | []]]; unfold_step; cbn; split_ifs;
     reflexivity).
Qed.

(** C8.  The total outstanding is the sum of [outstandingAmount] over all
    the aging rows, whatever the filters; the compliance rate and the
    breach total are the summary fields of the last answers; and no event
    of a filter bar or of a pagination control changes the summary
    metrics, in any render. *)
Theorem summary_metrics_ignore_filters_and_pages (ev : Event) (s : State) :
  (Metrics.totalOutstanding (summaryMetrics s)
   == sumQ (map outstandingAmount (agingData (aging s))))%Q /\
  (forall d,
      Metrics.avgCompliance
        (summaryMetrics
           (settle Date_parse (ComplianceFetch true (Fulfilled (Some d))) s))
      = orZero (Api.overallComplianceRate d)) /\
  (forall d,
      Metrics.totalBreaches
        (summaryMetrics
           (settle Date_parse (SlaFetch true (Fulfilled (Some d))) s))
      = orZero (Api.totalBreaches d)) /\
  (isFilterOrPageEvent ev = true ->
   forall r, In r (renders Date_parse ev s) ->
             summaryMetrics r = summaryMetrics s).
Proof.
  split; [apply totalOutstanding_sum|].
  split; [intros d; open_state s; unfold_step; step_simpl; reflexivity|].
  split; [intros d; open_state s; unfold_step; step_simpl; reflexivity|].
  intros Hev r Hin. eapply summaryMetrics_frame; eassumption.
Qed.

End SummaryFacts.

Lemma summary_metrics_ignore_filters_and_pages_witness :
  let ev := AgingStatusPicked "overdue" in
  isFilterOrPageEvent ev = true /\
  summaryMetrics (settle isoDateParse ev browsing) = summaryMetrics browsing /\
  Metrics.totalOutstanding (summaryMetrics (settle isoDateParse ev browsing))
  = 23000%Q /\
  sumQ (map outstandingAmount
          (filteredPaymentAging (settle isoDateParse ev browsing)))
  = 4000%Q.
Proof.
  intros ev.
  destruct (summary_metrics_ignore_filters_and_pages isoDateParse ev browsing)
    as (_ & _ & _ & Hframe).
  split; [reflexivity|].
  split; [apply (Hframe eq_refl); right; left; reflexivity|].
  split; reflexivity.
Defined.

(** ** A source that does not answer *)

Section FailureFacts.

Variable Date_parse : string -> TimeValue.

(** The summary request's [catch] discards the failure: nothing is
    written. *)
Lemma rejected_summary_discarded (mounted : bool) (s : State) :
  settle Date_parse (SummaryFetch mounted Rejected) s = s.
Proof. open_state s. unfold_step. step_simpl. reflexivity. Qed.

Lemma rejected_keeps_metrics (mounted : bool) (s : State) :
  let a := settle Date_parse (SummaryFetch mounted Rejected) s in
  let c := settle Date_parse (ComplianceFetch mounted Rejected) s in
  let l := settle Date_parse (SlaFetch mounted Rejected) s in
  paymentsReleased a = paymentsReleased s /\
  pendingPayments a = pendingPayments s /\
  overallCompliance (compliance c) = overallCompliance (compliance s) /\
  totalSlaBreaches (sla l) = totalSlaBreaches (sla s) /\
  avgDelayAcrossAll (sla l) = avgDelayAcrossAll (sla s).
Proof.
  open_state s. destruct mounted; unfold_step; step_simpl;
    repeat split; reflexivity.
Qed.

Lemma missing_field_gives_zero (s : State) :
  let a := settle Date_parse (SummaryFetch true (Fulfilled None)) s in
  let c := settle Date_parse (ComplianceFetch true (Fulfilled None)) s in
  let l := settle Date_parse (SlaFetch true (Fulfilled None)) s in
  (paymentsReleased a = 0 /\ pendingPayments a = 0 /\
   overallCompliance (compliance c) = 0 /\
   totalSlaBreaches (sla l) = 0 /\ avgDelayAcrossAll (sla l) = 0)%Q /\
  (forall p,
      paymentsReleased
        (settle Date_parse
           (SummaryFetch true
              (Fulfilled (Some {| Api.released := None; Api.pending := p |})))
           s) = 0%Q) /\
  (forall r,
      pendingPayments
        (settle Date_parse
           (SummaryFetch true
              (Fulfilled (Some {| Api.released := r; Api.pending := None |})))
           s) = 0%Q) /\
  (forall v,
      overallCompliance
        (compliance
           (settle Date_parse
              (ComplianceFetch true
                 (Fulfilled (Some {| Api.vendors := v;
                                     Api.overallComplianceRate := None |})))
              s)) = 0%Q) /\
  (forall i a',
      totalSlaBreaches
        (sla
           (settle Date_parse
              (SlaFetch true
                 (Fulfilled (Some {| Api.items := i;
                                     Api.totalBreaches := None;
                                     Api.avgDelayAcrossAll := a' |})))
              s)) = 0%Q) /\
  (forall i t,
      avgDelayAcrossAll
        (sla
           (settle Date_parse
              (SlaFetch true
                 (Fulfilled (Some {| Api.items := i;
                                     Api.totalBreaches := t;
                                     Api.avgDelayAcrossAll := None |})))
              s)) = 0%Q).
Proof.
  open_state s. unfold_step. step_simpl.
  repeat split; intros; unfold_step; step_simpl; reflexivity.
Qed.

Lemma summary_cells_kept (ev : Event) (s : State) :
  isSummaryAnswer ev = false ->
  paymentsReleased (settle Date_parse ev s) = paymentsReleased s /\
  pendingPayments (settle Date_parse ev s) = pendingPayments s.
Proof.
  intros Hev. open_state s. split_event ev Hev;
    unfold_step; cbn; split_ifs; split; reflexivity.
Qed.

Lemma compliance_cell_kept (ev : Event) (s : State) :
  isComplianceAnswer ev = false ->
  overallCompliance (compliance (settle Date_parse ev s))
  = overallCompliance (compliance s).
Proof.
  intros Hev. open_state s. split_event ev Hev;
    unfold_step; cbn; split_ifs; reflexivity.
Qed.

Lemma sla_cells_kept (ev : Event) (s : State) :
  isSlaAnswer ev = false ->
  totalSlaBreaches (sla (settle Date_parse ev s)) = totalSlaBreaches (sla s) /\
  avgDelayAcrossAll (sla (settle Date_parse ev s)) = avgDelayAcrossAll (sla s).
Proof.
  intros Hev. open_state s. split_event ev Hev;
    unfold_step; cbn; split_ifs; split; reflexivity.
Qed.

(** A cell that no event of a run writes is, after the run, what it was. *)
Lemma run_keeps {B : Type} (cell : State -> B) (writes : Event -> bool) :
  (forall ev s, writes ev = false ->
                cell (settle Date_parse ev s) = cell s) ->
  forall evs s,
    forallb (fun ev => negb (writes ev)) evs = true ->
    cell (run Date_parse evs s) = cell s.
Proof.
  intros Hkeep evs. induction evs as [|ev evs IH]; intros s Hall;
    [reflexivity|].
  cbn [forallb] in Hall. apply andb_true_iff in Hall as [Hev Hall].
  apply negb_true_iff in Hev.
  cbn [run fold_left]. change (fold_left _ evs ?x) with (run Date_parse evs x).
  now rewrite (IH _ Hall), Hkeep.
Qed.

(** The summary cells of a source that has not answered yet are 0. *)
Lemma unanswered_stays_zero (evs : list Event) :
  let s := run Date_parse evs mountedState in
  (forallb (fun ev => negb (isSummaryAnswer ev)) evs = true ->
   paymentsReleased s = 0%Q /\ pendingPayments s = 0%Q) /\
  (forallb (fun ev => negb (isComplianceAnswer ev)) evs = true ->
   overallCompliance (compliance s) = 0%Q) /\
  (forallb (fun ev => negb (isSlaAnswer ev)) evs = true ->
   totalSlaBreaches (sla s) = 0%Q /\ avgDelayAcrossAll (sla s) = 0%Q).
Proof.
  cbv zeta. split; [|split]; intros Hall.
  - split.
    + rewrite (run_keeps paymentsReleased isSummaryAnswer); auto.
      intros ev s H. now apply summary_cells_kept.
    + rewrite (run_keeps pendingPayments isSummaryAnswer); auto.
      intros ev s H. now apply summary_cells_kept.
  - rewrite (run_keeps (fun s => overallCompliance (compliance s))
               isComplianceAnswer); auto.
    intros ev s H. now apply compliance_cell_kept.
  - split.
    + rewrite (run_keeps (fun s => totalSlaBreaches (sla s)) isSlaAnswer);
        auto.
      intros ev s H. now apply sla_cells_kept.
    + rewrite (run_keeps (fun s => avgDelayAcrossAll (sla s)) isSlaAnswer);
        auto.
      intros ev s H. now apply sla_cells_kept.
Qed.

End FailureFacts.

Section UnavailableSource.

Variable Date_parse : string -> TimeValue.

(** C9, as the code has it.  A request that fails writes no summary cell:
    released, pending, the overall compliance rate, the breach total and
    the average delay stay as they were, which is 0 as long as their
    source has not answered since the component was mounted; the failure
    of the summary request is discarded and changes no cell at all.  An
    answer in which the response, its data or the summary field is
    missing sets the metric to 0. *)
Theorem unavailable_summary_keeps_or_zeroes (mounted : bool) (s : State)
  (evs : list Event) :
  settle Date_parse (SummaryFetch mounted Rejected) s = s /\
  (let a := settle Date_parse (SummaryFetch mounted Rejected) s in
   let c := settle Date_parse (ComplianceFetch mounted Rejected) s in
   let l := settle Date_parse (SlaFetch mounted Rejected) s in
   paymentsReleased a = paymentsReleased s /\
   pendingPayments a = pendingPayments s /\
   overallCompliance (compliance c) = overallCompliance (compliance s) /\
   totalSlaBreaches (sla l) = totalSlaBreaches (sla s) /\
   avgDelayAcrossAll (sla l) = avgDelayAcrossAll (sla s)) /\
  (let s' := run Date_parse evs mountedState in
   (forallb (fun ev => negb (isSummaryAnswer ev)) evs = true ->
    paymentsReleased s' = 0%Q /\ pendingPayments s' = 0%Q) /\
   (forallb (fun ev => negb (isComplianceAnswer ev)) evs = true ->
    overallCompliance (compliance s') = 0%Q) /\
   (forallb (fun ev => negb (isSlaAnswer ev)) evs = true ->
    totalSlaBreaches (sla s') = 0%Q /\ avgDelayAcrossAll (sla s') = 0%Q)) /\
  (let a := settle Date_parse (SummaryFetch true (Fulfilled None)) s in
   let c := settle Date_parse (ComplianceFetch true (Fulfilled None)) s in
   let l := settle Date_parse (SlaFetch true (Fulfilled None)) s in
   paymentsReleased a = 0%Q /\ pendingPayments a = 0%Q /\
   overallCompliance (compliance c) = 0%Q /\
   totalSlaBreaches (sla l) = 0%Q /\ avgDelayAcrossAll (sla l) = 0%Q) /\
  (forall p,
      paymentsReleased
        (settle Date_parse
           (SummaryFetch true
              (Fulfilled (Some {| Api.released := None; Api.pending := p |})))
           s) = 0%Q) /\
  (forall r,
      pendingPayments
        (settle Date_parse
           (SummaryFetch true
              (Fulfilled (Some {| Api.released := r; Api.pending := None |})))
           s) = 0%Q) /\
  (forall v,
      overallCompliance
        (compliance
           (settle Date_parse
              (ComplianceFetch true
                 (Fulfilled (Some {| Api.vendors := v;
                                     Api.overallComplianceRate := None |})))
              s)) = 0%Q) /\
  (forall i a',
      totalSlaBreaches
        (sla
           (settle Date_parse
              (SlaFetch true
                 (Fulfilled (Some {| Api.items := i;
                                     Api.totalBreaches := None;
                                     Api.avgDelayAcrossAll := a' |})))
              s)) = 0%Q) /\
  (forall i t,
      avgDelayAcrossAll
        (sla
           (settle Date_parse
              (SlaFetch true
                 (Fulfilled (Some {| Api.items := i;
                                     Api.totalBreaches := t;
                                     Api.avgDelayAcrossAll := None |})))
              s)) = 0%Q).
Proof.
  split; [apply rejected_summary_discarded|].
  split; [apply rejected_keeps_metrics|].
  split; [apply unanswered_stays_zero|].
  apply missing_field_gives_zero.
Qed.

End UnavailableSource.

Lemma unavailable_summary_keeps_or_zeroes_witness :
  let evs := [AgingFetch true sampleNow (Fulfilled (Some sampleItems));
              TimeRangeClicked monthly;
              SummaryFetch true Rejected] in
  forallb (fun ev => negb (isSummaryAnswer ev)) evs = true /\
  paymentsReleased (run isoDateParse evs mountedState) = 0%Q /\
  pendingPayments (run isoDateParse evs mountedState) = 0%Q.
Proof.
  intros evs.
  destruct (unavailable_summary_keeps_or_zeroes isoDateParse true
              mountedState evs) as (_ & _ & (Hzero & _) & _).
  split; [reflexivity|]. exact (Hzero eq_refl).
Defined.

(** C9, as stated, fails: once a summary has arrived, a later request
    that fails (here after the range has changed) leaves released and
    pending at the earlier values, not at 0. *)
Lemma failed_summary_keeps_earlier_values :
  let s := run isoDateParse staleSummaryTrace mountedState in
  timeRange s = monthly /\
  paymentsReleased s = 100%Q /\ pendingPayments s = 50%Q /\
  ~ (paymentsReleased s == 0)%Q /\ ~ (pendingPayments s == 0)%Q.
Proof.
  cbv zeta. repeat split; try reflexivity; vm_compute; discriminate.
Qed.

(** ** The tables and the requests *)

Section FetchFrame.

Variable Date_parse : string -> TimeValue.

(** C10, as the code has it.  The end of a table's request writes that
    table's rows (with the summary cells of the same answer) and, when its
    effect is still mounted, sets the one [loading] cell, which all three
    tables show, to false; it leaves the rows, filters and pages of the
    other two tables, and its own filters and page, as they were. *)
Theorem fetch_completion_frame (mounted : bool) (now : Z)
  (ra : Settled (option (list Api.AgingItem)))
  (rc : Settled (option Api.ComplianceData))
  (rs : Settled (option Api.SlaData)) (s : State) :
  let a := settle Date_parse (AgingFetch mounted now ra) s in
  let c := settle Date_parse (ComplianceFetch mounted rc) s in
  let l := settle Date_parse (SlaFetch mounted rs) s in
  (compliance a = compliance s /\ sla a = sla s /\
   filterCriteria a = filterCriteria s /\ currentPages a = currentPages s /\
   loading a = (if mounted then false else loading s)) /\
  (aging c = aging s /\ sla c = sla s /\
   filterCriteria c = filterCriteria s /\ currentPages c = currentPages s /\
   loading c = (if mounted then false else loading s)) /\
  (aging l = aging s /\ compliance l = compliance s /\
   filterCriteria l = filterCriteria s /\ currentPages l = currentPages s /\
   loading l = (if mounted then false else loading s)) /\
  agingTableLoading a = loading a /\
  complianceTableLoading a = loading a /\
  slaTableLoading a = loading a.
Proof.
  open_state s. destruct mounted, ra, rc, rs;
    unfold_step; step_simpl; repeat split; reflexivity.
Qed.

End FetchFrame.

(** C10, as stated, fails: with the three requests sent and none answered,
    the end of the aging request stops the spinner of the compliance table
    and of the SLA table, whose requests are still out. *)
Lemma aging_answer_stops_other_spinners :
  let s := settle isoDateParse
             (AgingFetch true sampleNow (Fulfilled (Some sampleItems)))
             mountedState in
  complianceTableLoading mountedState = true /\
  slaTableLoading mountedState = true /\
  complianceTableLoading s = false /\
  slaTableLoading s = false /\
  complianceTableLoading s <> complianceTableLoading mountedState /\
  complianceData (compliance s) = [] /\
  slaBreachData (sla s) = [].
Proof.
  cbv zeta. repeat split; try reflexivity. vm_compute. discriminate.
Qed.

(** * Further properties *)

(** ** The other buckets *)

Lemma Qgeb_spec (x y : Q) : Qgeb x y = true <-> (y <= x)%Q.
Proof. unfold Qgeb. apply Qle_bool_iff. Qed.

Lemma Qltb_Qgeb (x y : Q) : Qltb x y = negb (Qgeb x y).
Proof. reflexivity. Qed.

Lemma Qgeb_mono (x a b : Q) : (a <= b)%Q -> Qgeb x b = true -> Qgeb x a = true.
Proof.
  rewrite !Qgeb_spec. intros Hab Hb. eapply Qle_trans; eassumption.
Qed.

Lemma Qgeb_of_eq (x y : Q) : (x == y)%Q -> Qgeb x y = true.
Proof. intros H. apply Qgeb_spec. rewrite H. apply Qle_refl. Qed.

Lemma Qltb_spec (x y : Q) : Qltb x y = true <-> (x < y)%Q.
Proof. exact (Qgtb_spec y x). Qed.

(** X1.  The three levels of the compliance filter are the ranges high
    ([compliantPercentage >= 95]), medium ([>= 85] and [< 95]) and low
    ([< 85]), and they split the number line: every row is in exactly
    one of them; a row at 95 is high and a row at 85 is medium. *)
Theorem compliance_level_buckets_partition (row : ComplianceRecord) :
  (complianceLevelMatches "high" row = true <->
   (95 <= compliantPercentage row)%Q) /\
  (complianceLevelMatches "medium" row = true <->
   (85 <= compliantPercentage row)%Q /\ (compliantPercentage row < 95)%Q) /\
  (complianceLevelMatches "low" row = true <->
   (compliantPercentage row < 85)%Q) /\
  exactlyOne (complianceLevelMatches "high" row)
    (complianceLevelMatches "medium" row)
    (complianceLevelMatches "low" row) = true /\
  ((compliantPercentage row == 95)%Q ->
   complianceLevelMatches "high" row = true) /\
  ((compliantPercentage row == 85)%Q ->
   complianceLevelMatches "medium" row = true).
Proof.
  unfold complianceLevelMatches, exactlyOne.
  cbn [String.eqb Ascii.eqb Bool.eqb].
  split; [apply Qgeb_spec|].
  split; [rewrite andb_true_iff, Qgeb_spec, Qltb_spec; reflexivity|].
  split; [apply Qltb_spec|].
  rewrite !Qltb_Qgeb.
  split; [|split].
  - destruct (Qgeb (compliantPercentage row) 95) eqn:E95;
      destruct (Qgeb (compliantPercentage row) 85) eqn:E85; try reflexivity.
    exfalso. apply (Qgeb_mono _ 85%Q) in E95; [congruence|].
    unfold Qle; simpl; lia.
  - apply Qgeb_of_eq.
  - intros H85. rewrite (Qgeb_of_eq _ _ H85).
    destruct (Qgeb (compliantPercentage row) 95) eqn:E95; [|reflexivity].
    apply Qgeb_spec in E95. rewrite H85 in E95.
    exfalso. revert E95. unfold Qle; simpl; lia.
Qed.

Lemma compliance_level_buckets_partition_witness :
  (compliantPercentage (complianceRow "Acme" 95) == 95)%Q /\
  complianceLevelMatches "high" (complianceRow "Acme" 95) = true /\
  (compliantPercentage (complianceRow "Bolt" 85) == 85)%Q /\
  complianceLevelMatches "medium" (complianceRow "Bolt" 85) = true /\
  (compliantPercentage (complianceRow "Bolt" 85) < 95)%Q.
Proof.
  destruct (compliance_level_buckets_partition (complianceRow "Acme" 95))
    as (_ & _ & _ & _ & H95 & _).
  destruct (compliance_level_buckets_partition (complianceRow "Bolt" 85))
    as (_ & Hmed & _ & _ & _ & H85).
  assert (E95 : (compliantPercentage (complianceRow "Acme" 95) == 95)%Q)
    by reflexivity.
  assert (E85 : (compliantPercentage (complianceRow "Bolt" 85) == 85)%Q)
    by reflexivity.
  split; [exact E95|]. split; [exact (H95 E95)|].
  split; [exact E85|]. split; [exact (H85 E85)|].
  exact (proj2 (proj1 Hmed (H85 E85))).
Defined.

(** X2.  The two severity filters of the SLA table are ranges that split
    the number line.  By breach count: high is [>= 12], medium is [>= 8]
    and [< 12], low is [< 8], and exactly one holds.  By average delay:
    critical is [> 5], moderate is [> 3] and [<= 5], minor is [<= 3],
    and exactly one holds. *)
Theorem sla_severity_buckets_partition (row : SLABreachRecord) :
  (breachSeverityMatches "high" row = true <-> (12 <= breachCount row)%Q) /\
  (breachSeverityMatches "medium" row = true <->
   (8 <= breachCount row)%Q /\ (breachCount row < 12)%Q) /\
  (breachSeverityMatches "low" row = true <-> (breachCount row < 8)%Q) /\
  (delaySeverityMatches "critical" row = true <-> (5 < avgDelayDays row)%Q) /\
  (delaySeverityMatches "moderate" row = true <->
   (3 < avgDelayDays row)%Q /\ (avgDelayDays row <= 5)%Q) /\
  (delaySeverityMatches "minor" row = true <-> (avgDelayDays row <= 3)%Q) /\
  exactlyOne (breachSeverityMatches "high" row)
    (breachSeverityMatches "medium" row)
    (breachSeverityMatches "low" row) = true /\
  exactlyOne (delaySeverityMatches "critical" row)
    (delaySeverityMatches "moderate" row)
    (delaySeverityMatches "minor" row) = true.
Proof.
  unfold breachSeverityMatches, delaySeverityMatches, exactlyOne.
  cbn [String.eqb Ascii.eqb Bool.eqb].
  split; [apply Qgeb_spec|].
  split; [rewrite andb_true_iff, Qgeb_spec, Qltb_spec; reflexivity|].
  split; [apply Qltb_spec|].
  split; [apply Qgtb_spec|].
  split; [rewrite andb_true_iff, Qgtb_spec, Qleb_spec; reflexivity|].
  split; [apply Qleb_spec|].
  rewrite !Qltb_Qgeb, !Qleb_Qgtb.
  split.
  - destruct (Qgeb (breachCount row) 12) eqn:E12;
      destruct (Qgeb (breachCount row) 8) eqn:E8; try reflexivity.
    exfalso. apply (Qgeb_mono _ 8%Q) in E12; [congruence|].
    unfold Qle; simpl; lia.
  - destruct (Qgtb (avgDelayDays row) 5) eqn:E5;
      destruct (Qgtb (avgDelayDays row) 3) eqn:E3; try reflexivity.
    exfalso. apply (Qgtb_mono _ 3%Q) in E5; [congruence|].
    unfold Qle; simpl; lia.
Qed.

(** ** Colours and buckets *)

(** X3.  The colour of a figure is the bucket of the filter: in the aging
    table red, yellow and green are overdue, warning and good; in the
    compliance table green, yellow and red are high, medium and low; in
    the SLA table red, orange and yellow are critical, moderate and
    minor. *)
Theorem tones_follow_buckets (a : PaymentAgingRecord) (c : ComplianceRecord)
  (l : SLABreachRecord) :
  (agingBadge a = Red <-> isOverdue a = true) /\
  (agingBadge a = Yellow <-> isWarning a = true) /\
  (agingBadge a = Green <-> isGood a = true) /\
  (complianceTone c = Green <-> complianceLevelMatches "high" c = true) /\
  (complianceTone c = Yellow <-> complianceLevelMatches "medium" c = true) /\
  (complianceTone c = Red <-> complianceLevelMatches "low" c = true) /\
  (delayTone l = Red <-> delaySeverityMatches "critical" l = true) /\
  (delayTone l = Orange <-> delaySeverityMatches "moderate" l = true) /\
  (delayTone l = Yellow <-> delaySeverityMatches "minor" l = true).
Proof.
  unfold agingBadge, complianceTone, delayTone, isOverdue, isWarning, isGood,
    agingStatusMatches, complianceLevelMatches, delaySeverityMatches.
  cbn [String.eqb Ascii.eqb Bool.eqb]. rewrite !Qltb_Qgeb, !Qleb_Qgtb.
  assert (Ha : Qgtb (avgDaysPending a) 30 = true ->
               Qgtb (avgDaysPending a) 15 = true)
    by (apply Qgtb_mono; unfold Qle; simpl; lia).
  assert (Hc : Qgeb (compliantPercentage c) 95 = true ->
               Qgeb (compliantPercentage c) 85 = true)
    by (apply Qgeb_mono; unfold Qle; simpl; lia).
  assert (Hl : Qgtb (avgDelayDays l) 5 = true ->
               Qgtb (avgDelayDays l) 3 = true)
    by (apply Qgtb_mono; unfold Qle; simpl; lia).
  destruct (Qgtb (avgDaysPending a) 30), (Qgtb (avgDaysPending a) 15),
    (Qgeb (compliantPercentage c) 95), (Qgeb (compliantPercentage c) 85),
    (Qgtb (avgDelayDays l) 5), (Qgtb (avgDelayDays l) 3);
    try (specialize (Ha eq_refl)); try (specialize (Hc eq_refl));
    try (specialize (Hl eq_refl)); try discriminate;
    cbn; repeat split; intros; try reflexivity; try discriminate.
Qed.

(** The rows the warning bucket of the status filter keeps are the yellow
    ones. *)
Lemma warning_rows_are_yellow (v : string) (data : list PaymentAgingRecord)
  (row : PaymentAgingRecord) :
  In row (filterPaymentAging v "warning" data) -> agingBadge row = Yellow.
Proof.
  intros Hin. apply filterPaymentAging_In in Hin as [_ Hslots].
  unfold agingSlots in Hslots. apply andb_true_iff in Hslots as [_ Hb].
  unfold bucketSlot, agingStatusMatches in Hb.
  cbn [String.eqb Ascii.eqb Bool.eqb] in Hb. rewrite Qleb_Qgtb in Hb.
  apply andb_true_iff in Hb as [H15 H30]. apply negb_true_iff in H30.
  unfold agingBadge. now rewrite H30, H15.
Qed.

(** ** The vendor search *)

Lemma lowerAscii_idem (c : ascii) : lowerAscii (lowerAscii c) = lowerAscii c.
Proof. destruct c as [[] [] [] [] [] [] [] []]; reflexivity. Qed.

Lemma toLowerCase_idem (s : string) :
  toLowerCase (toLowerCase s) = toLowerCase s.
Proof.
  induction s as [|c s IH]; [reflexivity|].
  cbn [toLowerCase]. now rewrite lowerAscii_idem, IH.
Qed.

Lemma truthy_toLowerCase (s : string) : truthy (toLowerCase s) = truthy s.
Proof. destruct s; reflexivity. Qed.

Lemma prefix_spec (a s : string) :
  String.prefix a s = true <-> exists q, s = a ++ q.
Proof.
  revert s. induction a as [|c a IH]; intros s.
  - split; [intros _; exists s; reflexivity | intros _; now destruct s].
  - destruct s as [|d s]; cbn [String.prefix].
    + split; [discriminate | intros [q Hq]; discriminate].
    + destruct (ascii_dec c d) as [-> | Hne].
      * rewrite IH. split; intros [q Hq]; exists q.
        -- cbn [append]. now rewrite Hq.
        -- cbn [append] in Hq. now injection Hq.
      * split; [discriminate|].
        intros [q Hq]. cbn [append] in Hq. injection Hq as Hcd _. congruence.
Qed.

(** [includes] is: occurs somewhere. *)
Lemma includes_spec (s x : string) :
  includes s x = true <-> exists p q, s = p ++ x ++ q.
Proof.
  induction s as [|c s IH]; cbn [includes].
  - rewrite orb_false_r, prefix_spec. split.
    + intros [q Hq]. exists EmptyString, q. exact Hq.
    + intros (p & q & Hpq). destruct p; [exists q; exact Hpq | discriminate].
  - rewrite orb_true_iff, prefix_spec, IH. split.
    + intros [[q Hq] | (p & q & Hpq)].
      * exists EmptyString, q. exact Hq.
      * exists (String c p), q. cbn [append]. now rewrite Hpq.
    + intros (p & q & Hpq). destruct p as [|d p].
      * left. exists q. exact Hpq.
      * right. cbn [append] in Hpq. injection Hpq as _ Hs.
        exists p, q. exact Hs.
Qed.

Lemma includes_self (s : string) : includes s s = true.
Proof.
  apply includes_spec. exists EmptyString, EmptyString.
  cbn [append]. now rewrite append_nil_r.
Qed.

Lemma includes_trans (s x y : string) :
  includes s x = true -> includes x y = true -> includes s y = true.
Proof.
  rewrite !includes_spec. intros (p1 & q1 & ->) (p2 & q2 & ->).
  exists (p1 ++ p2), (q2 ++ q1). now rewrite !append_assoc.
Qed.

Lemma includes_empty_only (x : string) :
  includes EmptyString x = true -> x = EmptyString.
Proof.
  rewrite includes_spec. intros (p & q & H).
  destruct p; [|discriminate]. destruct x; [reflexivity | discriminate].
Qed.

Lemma toLowerCase_empty (s : string) :
  toLowerCase s = EmptyString -> s = EmptyString.
Proof. destruct s; [reflexivity | discriminate]. Qed.

Lemma vendorMatches_lower_filter (v name : string) :
  vendorMatches (toLowerCase v) name = vendorMatches v name.
Proof. unfold vendorMatches. now rewrite toLowerCase_idem. Qed.

(** X4.  The vendor search ignores case: a search text that equals a
    vendor's name up to case keeps that vendor, lower-casing the search
    text or the name changes no match, and the aging and compliance
    tables filtered by the lower-cased text are the tables filtered by
    the text. *)
Theorem vendor_search_ignores_case (v name st lv : string)
  (data : list PaymentAgingRecord) (cdata : list ComplianceRecord) :
  (toLowerCase v = toLowerCase name -> vendorMatches v name = true) /\
  vendorMatches (toLowerCase v) name = vendorMatches v name /\
  vendorMatches v (toLowerCase name) = vendorMatches v name /\
  filterPaymentAging (toLowerCase v) st data = filterPaymentAging v st data /\
  filterCompliance (toLowerCase v) lv cdata = filterCompliance v lv cdata.
Proof.
  split; [|split; [|split; [|split]]].
  - intros H. unfold vendorMatches. rewrite H. apply includes_self.
  - apply vendorMatches_lower_filter.
  - unfold vendorMatches. now rewrite toLowerCase_idem.
  - unfold filterPaymentAging. rewrite truthy_toLowerCase. f_equal.
    unfold filterWhen. destruct (truthy v); [|reflexivity].
    apply filter_ext. intros row. apply vendorMatches_lower_filter.
  - unfold filterCompliance. rewrite truthy_toLowerCase. f_equal.
    unfold filterWhen. destruct (truthy v); [|reflexivity].
    apply filter_ext. intros row. apply vendorMatches_lower_filter.
Qed.

Lemma vendor_search_ignores_case_witness :
  toLowerCase "ACME" = toLowerCase "Acme" /\
  vendorMatches "ACME" "Acme" = true /\
  List.length (filterPaymentAging "ACME" "all" sampleAging) = 4%nat.
Proof.
  split; [reflexivity|].
  split; [|reflexivity].
  exact (proj1 (vendor_search_ignores_case "ACME" "Acme" "all" "all" [] [])
           eq_refl).
Defined.

Lemma filter_refines {A : Type} (p q : A -> bool) (l : list A) :
  (forall x, q x = true -> p x = true) ->
  filter q (filter p l) = filter q l.
Proof.
  intros Himp. rewrite filter_filter_and. apply filter_ext. intros x.
  destruct (q x) eqn:E; [now rewrite (Himp x E) | apply andb_false_r].
Qed.

Lemma textSlot_narrows (v v' name : string) :
  includes (toLowerCase v') (toLowerCase v) = true ->
  textSlot v' name = true -> textSlot v name = true.
Proof.
  intros Hinc. unfold textSlot.
  destruct (String.eqb_spec v EmptyString) as [-> | Hv]; [reflexivity|].
  destruct (String.eqb_spec v' EmptyString) as [-> | Hv'].
  - apply includes_empty_only, toLowerCase_empty in Hinc. congruence.
  - unfold vendorMatches. intros Hm. eapply includes_trans; eassumption.
Qed.

(** X5.  A search text that contains the earlier one (up to case) only
    narrows the table: filtering the rows kept for the earlier text by
    the new text gives the rows kept for the new text, in the aging and
    in the compliance table. *)
Theorem longer_search_text_narrows (v v' st lv : string)
  (data : list PaymentAgingRecord) (cdata : list ComplianceRecord) :
  includes (toLowerCase v') (toLowerCase v) = true ->
  filterPaymentAging v' st (filterPaymentAging v st data)
  = filterPaymentAging v' st data /\
  filterCompliance v' lv (filterCompliance v lv cdata)
  = filterCompliance v' lv cdata /\
  (List.length (filterPaymentAging v' st data)
   <= List.length (filterPaymentAging v st data))%nat.
Proof.
  intros Hinc.
  assert (Ha : filterPaymentAging v' st (filterPaymentAging v st data)
               = filterPaymentAging v' st data).
  { rewrite !filterPaymentAging_slots. apply filter_refines. intros row.
    unfold agingSlots. rewrite !andb_true_iff. intros [Ht Hb].
    split; [|exact Hb]. eapply textSlot_narrows; eassumption. }
  split; [exact Ha|]. split.
  - rewrite !filterCompliance_slots. apply filter_refines. intros row.
    unfold complianceSlots. rewrite !andb_true_iff. intros [Ht Hb].
    split; [|exact Hb]. eapply textSlot_narrows; eassumption.
  - rewrite <- Ha. rewrite (filterPaymentAging_slots v' st).
    apply filter_length_le.
Qed.

Lemma longer_search_text_narrows_witness :
  includes (toLowerCase "Acme") (toLowerCase "ac") = true /\
  filterPaymentAging "Acme" "all" (filterPaymentAging "ac" "all" sampleAging)
  = filterPaymentAging "Acme" "all" sampleAging.
Proof.
  split; [reflexivity|].
  apply (longer_search_text_narrows "ac" "Acme" "all" "all" sampleAging []).
  reflexivity.
Defined.

(** X6.  Filtering is idempotent: each pipeline applied to its own output
    with the same criteria returns that output, and never returns more
    rows than it was given. *)
Theorem filters_are_idempotent (v st lv t b d : string)
  (adata : list PaymentAgingRecord) (cdata : list ComplianceRecord)
  (sdata : list SLABreachRecord) :
  filterPaymentAging v st (filterPaymentAging v st adata)
  = filterPaymentAging v st adata /\
  filterCompliance v lv (filterCompliance v lv cdata)
  = filterCompliance v lv cdata /\
  filterSLABreaches t b d (filterSLABreaches t b d sdata)
  = filterSLABreaches t b d sdata /\
  (List.length (filterPaymentAging v st adata) <= List.length adata)%nat /\
  (List.length (filterCompliance v lv cdata) <= List.length cdata)%nat /\
  (List.length (filterSLABreaches t b d sdata) <= List.length sdata)%nat.
Proof.
  rewrite !filterPaymentAging_slots, !filterCompliance_slots,
    !filterSLABreaches_slots.
  repeat split; try (apply filter_refines; auto); apply filter_length_le.
Qed.

(** ** Pages *)

(** From page 1 on, a page is the next [pageSize] rows after the pages
    before it. *)
Lemma paginated_firstn_skipn {A : Type} (p k : Z) (l : list A) :
  0 < p -> 1 <= k ->
  paginated p l k
  = firstn (Z.to_nat p) (skipn (Z.to_nat ((k - 1) * p)) l).
Proof.
  intros Hp Hk. unfold paginated, endIndex, startIndex, slice.
  set (start := (k - 1) * p). assert (Hs : 0 <= start) by (unfold start; nia).
  pose proof (len_nonneg l) as Hl.
  replace (start <? 0) with false by (symmetry; apply Z.ltb_ge; lia).
  replace (Z.min (start + p) (len l) <? 0) with false
    by (symmetry; apply Z.ltb_ge; lia).
  destruct (Z.le_gt_cases start (len l)) as [Hin | Hout].
  - rewrite (Z.min_l start) by lia.
    destruct (Z.le_gt_cases (start + p) (len l)) as [Hfull | Hlast].
    + f_equal. lia.
    + rewrite (firstn_all2 (n := Z.to_nat p))
        by (rewrite length_skipn; unfold len in *; lia).
      apply firstn_all2. rewrite length_skipn. unfold len in *. lia.
  - rewrite (skipn_all2 (n := Z.to_nat start)) by (unfold len in *; lia).
    rewrite firstn_nil. replace (Z.to_nat _) with 0%nat by lia.
    reflexivity.
Qed.

Lemma chunks_concat {A : Type} (p m : nat) (l : list A) :
  (List.length l <= m * p)%nat ->
  flat_map (fun j => firstn p (skipn (j * p) l)) (seq 0 m) = l.
Proof.
  revert l. induction m as [|m IH]; intros l Hlen.
  - destruct l; [reflexivity | simpl in Hlen; lia].
  - cbn [seq flat_map]. rewrite <- seq_shift, flat_map_concat_map, map_map.
    rewrite <- flat_map_concat_map.
    rewrite (flat_map_ext _ (fun j => firstn p (skipn (j * p) (skipn p l)))).
    + rewrite IH by (rewrite length_skipn; lia).
      cbn [Nat.mul skipn]. apply firstn_skipn.
    + intros j. rewrite skipn_skipn. do 2 f_equal. lia.
Qed.

Lemma length_flat_map_sum {A B : Type} (f : A -> list B) (l : list A) :
  list_sum (map (fun x => List.length (f x)) l)
  = List.length (flat_map f l).
Proof.
  unfold list_sum. induction l as [|x l IH]; [reflexivity|].
  cbn [map fold_right flat_map]. now rewrite length_app, IH.
Qed.

(** X7.  The pages 1 to [totalPages] partition the filtered rows: their
    visible slices, one after the other, are the filtered list, so the
    page sizes add up to the number of filtered rows. *)
Theorem pages_partition_the_rows {A : Type} (p : Z) (l : list A) :
  0 < p ->
  allPages p l = l /\
  list_sum
    (map (fun j => List.length (paginated p l (Z.of_nat (S j))))
       (seq 0 (Z.to_nat (totalPages p l))))
  = List.length l.
Proof.
  intros Hp.
  assert (Hall : allPages p l = l).
  { unfold allPages.
    rewrite (flat_map_ext _
               (fun j => firstn (Z.to_nat p) (skipn (j * Z.to_nat p) l))).
    - apply chunks_concat.
      pose proof (Math_ceil_div_spec (len l) p Hp) as [_ Hup].
      fold (totalPages p l) in Hup. pose proof (len_nonneg l) as Hl.
      assert (0 <= totalPages p l) by nia. unfold len in *. nia.
    - intros j. rewrite paginated_firstn_skipn by lia. do 2 f_equal. nia. }
  split; [exact Hall|].
  rewrite (length_flat_map_sum
             (fun j => paginated p l (Z.of_nat (S j)))).
  fold (allPages p l). now rewrite Hall.
Qed.

Lemma pages_partition_the_rows_witness :
  0 < 10 /\ allPages 10 sampleAging = sampleAging.
Proof.
  split; [lia|].
  exact (proj1 (pages_partition_the_rows 10 sampleAging ltac:(lia))).
Defined.

(** X8.  From page 1 on, a page shows [min(p, n - (k-1)*p)] rows and none
    if that is negative: never more than the page size, at least one row
    exactly on the pages up to [totalPages]. *)
Theorem page_sizes {A : Type} (p k : Z) (l : list A) :
  0 < p -> 1 <= k ->
  len (paginated p l k) = Z.max 0 (Z.min p (len l - (k - 1) * p)) /\
  len (paginated p l k) <= p /\
  (paginated p l k <> [] <-> k <= totalPages p l).
Proof.
  intros Hp Hk.
  assert (Hlen : len (paginated p l k)
                 = Z.max 0 (Z.min p (len l - (k - 1) * p))).
  { rewrite paginated_firstn_skipn by assumption. unfold len.
    rewrite length_firstn, length_skipn.
    assert (Hs : 0 <= (k - 1) * p) by nia.
    generalize dependent ((k - 1) * p). intros start Hs. lia. }
  split; [exact Hlen|]. split; [lia|].
  pose proof (Math_ceil_div_spec (len l) p Hp) as [Hlo Hup].
  fold (totalPages p l) in Hlo, Hup.
  split.
  - intros Hne. destruct (Z.le_gt_cases k (totalPages p l)); [assumption|].
    exfalso. apply Hne.
    assert (Hpast : totalPages p l * p <= (k - 1) * p) by nia.
    destruct (paginated p l k); [reflexivity|].
    unfold len in Hlen at 1. cbn [List.length] in Hlen. lia.
  - intros Hle Hnil. rewrite Hnil in Hlen. unfold len in Hlen at 1.
    cbn [List.length] in Hlen.
    assert (Hbefore : (k - 1) * p <= (totalPages p l - 1) * p) by nia.
    lia.
Qed.

Lemma page_sizes_witness :
  0 < 10 /\ 1 <= 3 /\
  len (paginated 10 sampleAging 3) = 3 /\ paginated 10 sampleAging 3 <> [].
Proof.
  destruct (page_sizes 10 3 sampleAging ltac:(lia) ltac:(lia))
    as (Hlen & _ & Hne).
  split; [lia|]. split; [lia|]. split; [exact Hlen|].
  apply Hne. vm_compute. discriminate.
Defined.

(** X9.  Page 0 shows nothing.  A negative page does not: its start and
    end are both negative, [slice] counts them from the end of the list,
    and the page shows [p] rows from there. *)
Theorem pages_below_one {A : Type} (p k : Z) (l : list A) :
  0 < p ->
  paginated p l 0 = [] /\
  (k < 0 -> (1 - k) * p <= len l ->
   paginated p l k
   = firstn (Z.to_nat p) (skipn (Z.to_nat (len l - (1 - k) * p)) l) /\
   len (paginated p l k) = p).
Proof.
  intros Hp. pose proof (len_nonneg l) as Hl. split.
  - unfold paginated, endIndex, startIndex, slice.
    replace ((0 - 1) * p <? 0) with true by (symmetry; apply Z.ltb_lt; lia).
    replace (Z.min ((0 - 1) * p + p) (len l) <? 0) with false
      by (symmetry; apply Z.ltb_ge; lia).
    replace (Z.to_nat _) with 0%nat by lia. reflexivity.
  - intros Hk Hfit.
    assert (Heq : paginated p l k
                  = firstn (Z.to_nat p)
                      (skipn (Z.to_nat (len l - (1 - k) * p)) l)).
    { unfold paginated, endIndex, startIndex, slice.
      replace ((k - 1) * p <? 0) with true by (symmetry; apply Z.ltb_lt; nia).
      replace (Z.min ((k - 1) * p + p) (len l) <? 0) with true
        by (symmetry; apply Z.ltb_lt; nia).
      f_equal; [|f_equal]; nia. }
    split; [exact Heq|]. rewrite Heq. unfold len.
    rewrite length_firstn, length_skipn. unfold len in *. nia.
Qed.

Lemma pages_below_one_witness :
  0 < 10 /\ -1 < 0 /\ (1 - -1) * 10 <= len sampleAging /\
  paginated 10 sampleAging (-1) = firstn 10 (skipn 3 sampleAging) /\
  len (paginated 10 sampleAging (-1)) = 10.
Proof.
  destruct (pages_below_one 10 (-1) sampleAging ltac:(lia)) as [_ H].
  assert (Hfit : (1 - -1) * 10 <= len sampleAging) by (vm_compute; discriminate).
  split; [lia|]. split; [lia|]. split; [exact Hfit|].
  exact (H ltac:(lia) Hfit).
Defined.

(** ** More on the component *)

Section MoreComponentFacts.

Variable Date_parse : string -> TimeValue.

(** X10.  A Reset button shows the head of the whole table at once: in
    every render after the click, the table's filtered rows are all its
    rows and its visible page is their first ten. *)
Theorem reset_shows_first_page (s r : State) :
  (In r (renders Date_parse AgingResetClicked s) ->
   filteredPaymentAging r = agingData (aging s) /\
   paginatedPaymentAging r = firstn 10 (agingData (aging s))) /\
  (In r (renders Date_parse ComplianceResetClicked s) ->
   filteredCompliance r = complianceData (compliance s) /\
   paginatedCompliance r = firstn 10 (complianceData (compliance s))) /\
  (In r (renders Date_parse SlaResetClicked s) ->
   filteredSLABreaches r = slaBreachData (sla s) /\
   paginatedSLABreaches r = firstn 10 (slaBreachData (sla s))).
Proof.
  assert (Hpage : forall A (l : list A), paginated itemsPerPage l 1 = firstn 10 l).
  { intros A l. unfold itemsPerPage.
    rewrite paginated_firstn_skipn by lia. reflexivity. }
  open_state s.
  split; [|split]; intros [<- | [<- | []]];
    unfold paginatedPaymentAging, paginatedCompliance, paginatedSLABreaches,
      filteredPaymentAging, filteredCompliance, filteredSLABreaches;
    unfold_step; cbn; split_ifs; cbn; split; try reflexivity; apply Hpage.
Qed.

(** X11.  The end of a request whose effect has been cleaned up changes
    nothing: every cell is as it was, in every render. *)
Theorem stale_completion_is_discarded (ev : Event) (s r : State) :
  isStaleCompletion ev = true ->
  In r (renders Date_parse ev s) -> r = s.
Proof.
  intros Hev Hin. open_state s.
  destruct ev as [ | | | | | | | | | | | | | | | | | [|] ? ? | [|] ? | [|] ?
                 | [|] ? | [|] ? ];
    try discriminate Hev;
    (destruct Hin as [<- | [<- | []]];
     repeat match goal with x : Settled _ |- _ => destruct x end;
     unfold_step; step_simpl; reflexivity).
Qed.

(** X12.  Effects do not loop: the effects that are due after an event's
    first render are not due again after the render they cause, and with
    no change of state none is due. *)
Theorem effects_run_once (ev : Event) (s : State) :
  runEffects (firstRender Date_parse ev s) (settle Date_parse ev s)
  = settle Date_parse ev s /\
  runEffects s s = s.
Proof.
  split; [apply settle_is_stable|].
  open_state s. unfold_step. step_simpl. reflexivity.
Qed.

(** X13.  Picking a time range other than the current one sets the range
    and turns the shared spinner on, and leaves the rows, filters and
    pages of the three tables and the summary cells as they were; picking
    the current range changes nothing. *)
Theorem time_range_click (range : TimeRange) (s : State) :
  let s' := settle Date_parse (TimeRangeClicked range) s in
  (range = timeRange s -> s' = s) /\
  (range <> timeRange s ->
   timeRange s' = range /\ loading s' = true /\
   aging s' = aging s /\ compliance s' = compliance s /\ sla s' = sla s /\
   summaryMetrics s' = summaryMetrics s /\
   paymentChartData s' = paymentChartData s).
Proof.
  cbv zeta. open_state s. cbn [timeRange]. split.
  - intros ->. unfold_step. step_simpl. reflexivity.
  - intros Hne. unfold_step. cbn.
    rewrite !String.eqb_refl. cbn.
    destruct tr, range; try congruence; cbn; repeat split; reflexivity.
Qed.

(** X14.  The page reset is per table: after an edit of a filter, a table
    whose own filter criteria did not change keeps its current page, so
    editing one table's filters never moves another table's page, and
    picking the value a filter already has moves none. *)
Theorem unchanged_filters_keep_page (ev : Event) (s : State) :
  isFilterEdit ev = true ->
  (agingFilters (firstRender Date_parse ev s) = agingFilters s ->
   agingCurrentPage (aging (settle Date_parse ev s))
   = agingCurrentPage (aging s)) /\
  (complianceFilters (firstRender Date_parse ev s) = complianceFilters s ->
   complianceCurrentPage (compliance (settle Date_parse ev s))
   = complianceCurrentPage (compliance s)) /\
  (slaFilters (firstRender Date_parse ev s) = slaFilters s ->
   slaCurrentPage (sla (settle Date_parse ev s)) = slaCurrentPage (sla s)).
Proof.
  intros Hev.
  pose proof (filter_edit_keeps_pages Date_parse ev s Hev) as Hkeep.
  unfold currentPages in Hkeep.
  destruct (runEffects_pages s (firstRender Date_parse ev s)) as (Ha & Hc & Hs).
  unfold settle. rewrite Ha, Hc, Hs.
  split; [|split]; intros Hsame.
  - replace (agingFiltersChanged s (firstRender Date_parse ev s)) with false
      by (symmetry; apply not_true_is_false;
          rewrite agingFiltersChanged_iff; congruence).
    congruence.
  - replace (complianceFiltersChanged s (firstRender Date_parse ev s))
      with false
      by (symmetry; apply not_true_is_false;
          rewrite complianceFiltersChanged_iff; congruence).
    congruence.
  - replace (slaFiltersChanged s (firstRender Date_parse ev s)) with false
      by (symmetry; apply not_true_is_false;
          rewrite slaFiltersChanged_iff; congruence).
    congruence.
Qed.

(** X15.  An answer to the aging request replaces the rows by one row per
    item of the answer, in order, whatever the dates of the items are,
    and the total outstanding is then the sum of the amounts of the
    answer; an answer without data empties the table. *)
Theorem aging_answer_sets_rows (now : Z)
  (resp : option (list Api.AgingItem)) (s : State) :
  let s' := settle Date_parse (AgingFetch true now (Fulfilled resp)) s in
  agingData (aging s') = map (agingRecord Date_parse now) (orEmpty resp) /\
  List.length (agingData (aging s')) = List.length (orEmpty resp) /\
  map vendor (agingData (aging s')) = map Api.vendorName (orEmpty resp) /\
  (Metrics.totalOutstanding (summaryMetrics s')
   == sumQ (map Api.outstandingAmount (orEmpty resp)))%Q /\
  (resp = None -> agingData (aging s') = [] /\ paginatedPaymentAging s' = []).
Proof.
  cbv zeta.
  assert (Hrows : agingData
                    (aging (settle Date_parse
                              (AgingFetch true now (Fulfilled resp)) s))
                  = map (agingRecord Date_parse now) (orEmpty resp)).
  { open_state s. unfold_step. step_simpl. reflexivity. }
  split; [exact Hrows|].
  split; [rewrite Hrows; apply length_map|].
  split; [rewrite Hrows, map_map; reflexivity|].
  split.
  - rewrite totalOutstanding_sum, Hrows, map_map. reflexivity.
  - intros ->. split; [exact Hrows|].
    unfold paginatedPaymentAging, filteredPaymentAging. rewrite Hrows.
    cbn [orEmpty map]. rewrite filterPaymentAging_slots. cbn [filter].
    unfold paginated, slice. now rewrite skipn_nil, firstn_nil.
Qed.

End MoreComponentFacts.

Lemma stale_completion_is_discarded_witness :
  let ev := AgingFetch false sampleNow (Fulfilled (Some sampleItems)) in
  isStaleCompletion ev = true /\ settle isoDateParse ev browsing = browsing.
Proof.
  intros ev. split; [reflexivity|].
  apply (stale_completion_is_discarded isoDateParse ev browsing);
    [reflexivity | right; left; reflexivity].
Defined.

Lemma time_range_click_witness :
  monthly <> timeRange browsing /\
  loading (settle isoDateParse (TimeRangeClicked monthly) browsing) = true /\
  aging (settle isoDateParse (TimeRangeClicked monthly) browsing)
  = aging browsing.
Proof.
  assert (Hne : monthly <> timeRange browsing) by (vm_compute; discriminate).
  destruct (time_range_click isoDateParse monthly browsing) as [_ H].
  destruct (H Hne) as (_ & Hl & Ha & _).
  split; [exact Hne|]. split; [exact Hl | exact Ha].
Defined.

Lemma unchanged_filters_keep_page_witness :
  let ev := ComplianceLevelPicked "high" in
  isFilterEdit ev = true /\
  agingFilters (firstRender isoDateParse ev browsing) = agingFilters browsing /\
  agingCurrentPage (aging (settle isoDateParse ev browsing)) = 3.
Proof.
  intros ev.
  destruct (unchanged_filters_keep_page isoDateParse ev browsing eq_refl)
    as (Ha & _).
  split; [reflexivity|]. split; [reflexivity|].
  exact (Ha eq_refl).
Defined.

(** ** More on the CSV export *)

Lemma uniq_In (x : string) (l : list string) : In x (uniq l) <-> In x l.
Proof.
  induction l as [|y l IH]; [reflexivity|].
  cbn [uniq In]. rewrite filter_In, IH, negb_true_iff, String.eqb_neq.
  split.
  - intros [H | [H _]]; auto.
  - intros [H | H]; [now left|].
    destruct (string_dec y x) as [E | E]; [now left | right; auto].
Qed.

Lemma uniq_NoDup (l : list string) : NoDup (uniq l).
Proof.
  induction l as [|y l IH]; [constructor|].
  cbn [uniq]. constructor.
  - rewrite filter_In, negb_true_iff, String.eqb_neq. intros [_ H]. congruence.
  - now apply NoDup_filter.
Qed.

Lemma filter_keeps_all {A : Type} (f : A -> bool) (l : list A) :
  (forall x, In x l -> f x = true) -> filter f l = l.
Proof.
  intros H. apply forallb_filter_id, forallb_forall. exact H.
Qed.

Lemma uniq_app_NoDup (a b : list string) :
  NoDup a -> exists rest, uniq (a ++ b)%list = (a ++ rest)%list.
Proof.
  induction a as [|x a IH]; intros Hnd.
  - exists (uniq b). reflexivity.
  - inversion Hnd as [|? ? Hx Ha]; subst. destruct (IH Ha) as [rest Hrest].
    exists (filter (fun y => negb (String.eqb x y)) rest).
    cbn [app uniq]. rewrite Hrest, filter_app. f_equal. f_equal.
    apply filter_keeps_all. intros y Hy.
    apply negb_true_iff, String.eqb_neq. congruence.
Qed.

(** X16.  Without a header order (or with an empty one) the headers of the
    export are the keys of the rows: every key of every row and nothing
    else, each once, the keys of the first row first.  A header order
    that is not empty is used as it is. *)
Theorem fallback_headers (rows : list Row) (order : list string) :
  csvHeaders rows (Some []) = csvHeaders rows None /\
  NoDup (csvHeaders rows None) /\
  (forall h, In h (csvHeaders rows None) <->
             exists row, In row rows /\ In h (Object_keys row)) /\
  (forall row rest,
      rows = row :: rest -> NoDup (Object_keys row) ->
      exists more, csvHeaders rows None = (Object_keys row ++ more)%list) /\
  (order <> [] -> csvHeaders rows (Some order) = order).
Proof.
  split; [reflexivity|]. split; [apply uniq_NoDup|].
  split; [|split].
  - intros h. unfold csvHeaders. rewrite uniq_In, in_flat_map. reflexivity.
  - intros row rest -> Hnd. unfold csvHeaders. cbn [flat_map].
    now apply uniq_app_NoDup.
  - intros Hne. destruct order; [congruence | reflexivity].
Qed.

Lemma fallback_headers_witness :
  awkwardRows = hd [] awkwardRows :: tl awkwardRows /\
  NoDup (Object_keys (hd [] awkwardRows)) /\
  csvHeaders awkwardRows None = ["slaType"; "breachCount"; "avgDelayDays"] /\
  slaHeaders <> [] /\ csvHeaders awkwardRows (Some slaHeaders) = slaHeaders.
Proof.
  destruct (fallback_headers awkwardRows slaHeaders)
    as (_ & _ & _ & Hfirst & Hgiven).
  assert (Hnd : NoDup (Object_keys (hd [] awkwardRows))).
  { repeat constructor; cbn; intuition discriminate. }
  split; [reflexivity|]. split; [exact Hnd|].
  destruct (Hfirst _ _ eq_refl Hnd) as [more Hmore].
  split; [reflexivity|].
  assert (Hne : slaHeaders <> []) by discriminate.
  split; [exact Hne | exact (Hgiven Hne)].
Defined.

Lemma getProp_missing (row : Row) (h : string) :
  ~ In h (Object_keys row) -> getProp row h = Object_prototype h.
Proof.
  induction row as [|[k v] row IH]; [reflexivity|].
  cbn [Object_keys map fst In getProp]. intros Hnot.
  destruct (String.eqb_spec k h) as [-> | Hne]; [tauto|].
  apply IH. unfold Object_keys. tauto.
Qed.

Lemma existsb_eqb_false (h : string) (names : list string) :
  ~ In h names -> existsb (String.eqb h) names = false.
Proof.
  intros Hnot. apply not_true_is_false. intros H.
  apply existsb_exists in H as (x & Hx & E).
  apply String.eqb_eq in E. congruence.
Qed.

Lemma Object_prototype_other (h : string) :
  ~ In h prototypeNames -> Object_prototype h = Undefined.
Proof.
  unfold prototypeNames. cbn [In]. intros Hnot. unfold Object_prototype.
  destruct (String.eqb_spec h "constructor") as [E | _];
    [exfalso; apply Hnot; left; now symmetry|].
  rewrite existsb_eqb_false by tauto.
  destruct (String.eqb_spec h "__proto__") as [E | _];
    [exfalso; apply Hnot; right; left; now symmetry|].
  reflexivity.
Qed.

(** X17.  With plain header names, at least one row and at least one
    header, the export read back is rectangular: one record for the
    header row and one per row, each with one field per header.  Under a
    key the row does not own, the field is the text of what the row
    inherits from [Object.prototype] under that key, and it is empty
    when the key is no property name of [Object.prototype]. *)
Theorem export_is_rectangular (rows : list Row)
  (headerOrder : option (list string)) :
  let headers := csvHeaders rows headerOrder in
  let table := parseCSV (toCSV rows headerOrder) in
  rows <> [] -> headers <> [] -> Forall plainHeader headers ->
  List.length table = S (List.length rows) /\
  Forall (fun record => List.length record = List.length headers) table /\
  (forall i j row h,
      nth_error rows i = Some row -> nth_error headers j = Some h ->
      ~ In h (Object_keys row) ->
      cellAt table (S i) j = Some (stringify (Object_prototype h)) /\
      (~ In h prototypeNames -> cellAt table (S i) j = Some EmptyString)).
Proof.
  intros headers table Hrows Hcols Hplain. unfold table.
  rewrite (parseCSV_toCSV rows headerOrder Hrows Hcols Hplain). fold headers.
  split; [cbn [List.length]; now rewrite length_map|].
  split.
  - constructor; [reflexivity|].
    apply Forall_forall. intros record Hin.
    apply in_map_iff in Hin as (row & <- & _). apply length_map.
  - intros i j row h Hi Hj Hmissing.
    rewrite (cellAt_rows headers rows i j row h Hi Hj).
    rewrite (getProp_missing row h Hmissing).
    split; [reflexivity|].
    intros Hother. now rewrite (Object_prototype_other h Hother).
Qed.

Lemma export_is_rectangular_witness :
  awkwardRows <> [] /\
  csvHeaders awkwardRows (Some slaHeaders) <> [] /\
  Forall plainHeader (csvHeaders awkwardRows (Some slaHeaders)) /\
  List.length (parseCSV (toCSV awkwardRows (Some slaHeaders))) = 3%nat /\
  cellAt (parseCSV (toCSV awkwardRows (Some slaHeaders))) 2 2
  = Some EmptyString.
Proof.
  assert (Hrows : awkwardRows <> []) by discriminate.
  assert (Hcols : csvHeaders awkwardRows (Some slaHeaders) <> [])
    by discriminate.
  assert (Hplain : Forall plainHeader (csvHeaders awkwardRows (Some slaHeaders)))
    by (repeat constructor).
  destruct (export_is_rectangular awkwardRows (Some slaHeaders)
              Hrows Hcols Hplain) as (Hlen & _ & Hcell).
  split; [exact Hrows|]. split; [exact Hcols|]. split; [exact Hplain|].
  split; [exact Hlen|].
  apply (Hcell 1%nat 2%nat
           [("slaType", Val "Payment Release"); ("breachCount", Val "3")]
           "avgDelayDays" eq_refl eq_refl).
  - cbn. intuition discriminate.
  - cbn. intuition discriminate.
Defined.

(** A header that names a method of every object is filled from the
    prototype, not left empty. *)
Example inherited_key_is_exported :
  cellAt
    (parseCSV (toCSV [[("vendor", Val "Acme")]]
                 (Some ["vendor"; "constructor"]))) 1 1
  = Some "function Object() { [native code] }".
Proof. reflexivity. Qed.

(** X18.  [escapeCSV] keeps texts apart: two values get the same field
    exactly when they have the same text, so [null], [undefined] and the
    empty string, and only values with equal text, are written alike. *)
Theorem escapeCSV_keeps_texts_apart (a b : CellValue) :
  (escapeCSV a = escapeCSV b <-> stringify a = stringify b) /\
  escapeCSV Null = escapeCSV Undefined /\
  escapeCSV Null = escapeCSV (Val EmptyString).
Proof.
  split; [|split; reflexivity]. split.
  - intros Heq.
    pose proof (scan_escaped a EmptyString (or_introl eq_refl)) as Ha.
    pose proof (scan_escaped b EmptyString (or_introl eq_refl)) as Hb.
    rewrite Heq in Ha. rewrite Ha in Hb. cbn [scan prepend] in Hb.
    rewrite !append_nil_r in Hb. now injection Hb.
  - unfold escapeCSV. now intros ->.
Qed.

(** ** Whole days *)

Section MoreDaysOldFacts.

Variable Date_parse : string -> TimeValue.

(** X19.  For a date that parses, [computeDaysOld] counts the whole days
    elapsed: the date lies at least [d] and less than [d + 1] days before
    the clock; a date in the future counts 0; and the count never goes
    down as the clock advances. *)
Theorem computeDaysOld_counts_whole_days (now now' t : Z) (s : string) :
  s <> EmptyString -> Date_parse s = Ms t ->
  exists d d',
    computeDaysOld Date_parse now (Some s) = JNum d /\
    computeDaysOld Date_parse now' (Some s) = JNum d' /\
    (t <= now -> d * msPerDay <= now - t < (d + 1) * msPerDay) /\
    (now < t -> d = 0) /\
    (now <= now' -> d <= d').
Proof.
  intros Hs Ht.
  exists (Z.max 0 ((now - t) / 86400000)), (Z.max 0 ((now' - t) / 86400000)).
  split; [now apply computeDaysOld_parsed|].
  split; [now apply computeDaysOld_parsed|].
  change msPerDay with 86400000.
  pose proof (Z.div_mod (now - t) 86400000 ltac:(lia)) as Hdm.
  pose proof (Z.mod_pos_bound (now - t) 86400000 ltac:(lia)) as Hm.
  split; [|split].
  - intros Hle.
    assert (0 <= (now - t) / 86400000) by (apply Z.div_pos; lia). lia.
  - intros Hlt.
    assert ((now - t) / 86400000 < 0) by (apply Z.div_lt_upper_bound; lia).
    lia.
  - intros Hle.
    assert ((now - t) / 86400000 <= (now' - t) / 86400000)
      by (apply Z.div_le_mono; lia).
    lia.
Qed.

End MoreDaysOldFacts.

Lemma computeDaysOld_counts_whole_days_witness :
  "2024-01-01" <> EmptyString /\
  isoDateParse "2024-01-01" = Ms 1704067200000 /\
  computeDaysOld isoDateParse sampleNow (Some "2024-01-01") = JNum 14 /\
  14 * msPerDay <= sampleNow - 1704067200000 < (14 + 1) * msPerDay.
Proof.
  destruct (computeDaysOld_counts_whole_days isoDateParse sampleNow sampleNow
              1704067200000 "2024-01-01" ltac:(discriminate) eq_refl)
    as (d & d' & Hd & _ & Hbounds & _).
  assert (E : d = 14) by (vm_compute in Hd; congruence). subst d.
  split; [discriminate|]. split; [reflexivity|]. split; [exact Hd|].
  apply Hbounds. vm_compute. discriminate.
Defined.

(** ** The breach bar *)

Lemma Qmaxb_ge (x y : Q) : (x <= Qmaxb x y)%Q /\ (y <= Qmaxb x y)%Q.
Proof.
  unfold Qmaxb. destruct (Qle_bool x y) eqn:E.
  - apply Qle_bool_iff in E. split; [exact E | apply Qle_refl].
  - split; [apply Qle_refl|]. apply Qlt_le_weak, Qnot_le_lt.
    intros H. apply Qle_bool_iff in H. congruence.
Qed.

Lemma fold_Qmaxb_ge (l : list Q) (x : Q) :
  (x <= fold_left Qmaxb l x)%Q /\
  (forall y, In y l -> (y <= fold_left Qmaxb l x)%Q).
Proof.
  revert x. induction l as [|z l IH]; intros x; cbn [fold_left].
  - split; [apply Qle_refl | intros y []].
  - destruct (IH (Qmaxb x z)) as [Hx Hl]. destruct (Qmaxb_ge x z) as [H1 H2].
    split; [eapply Qle_trans; eassumption|].
    intros y [<- | Hy]; [eapply Qle_trans; eassumption | now apply Hl].
Qed.

Lemma fold_Qmaxb_in (l : list Q) (x : Q) :
  In (fold_left Qmaxb l x) (x :: l).
Proof.
  revert x. induction l as [|z l IH]; intros x; cbn [fold_left].
  - now left.
  - specialize (IH (Qmaxb x z)). destruct IH as [H | H].
    + rewrite <- H. unfold Qmaxb.
      destruct (Qle_bool x z); [right; now left | now left].
    + right. now right.
Qed.

Lemma maxBreaches_spec (filtered : list SLABreachRecord)
  (record : SLABreachRecord) :
  In record filtered ->
  exists m top,
    maxBreaches filtered = Finite m /\ In top filtered /\
    breachCount top = m /\
    forall r, In r filtered -> (breachCount r <= m)%Q.
Proof.
  intros Hin. unfold maxBreaches, Math_max_of.
  destruct filtered as [|first rest]; [destruct Hin|]. cbn [map].
  set (m := fold_left Qmaxb (map breachCount rest) (breachCount first)).
  assert (Hm : In m (map breachCount (first :: rest)))
    by apply (fold_Qmaxb_in (map breachCount rest) (breachCount first)).
  apply in_map_iff in Hm as (top & Htop & Hintop).
  exists m, top. split; [reflexivity|]. split; [exact Hintop|].
  split; [exact Htop|].
  destruct (fold_Qmaxb_ge (map breachCount rest) (breachCount first))
    as [Hfirst Hrest].
  intros r [<- | Hr]; [exact Hfirst|].
  apply Hrest. now apply in_map.
Qed.

(** X20.  Over filtered rows whose breach counts are not negative and not
    all 0, the bar of a row is between 0 and 100 per cent wide; there is
    a row with the most breaches, the width of any row is its count over
    the count of such a row, times 100, and so a row with the most
    breaches has the full width.  When every count is 0 the width is NaN
    and no figure is shown in the bar. *)
Theorem breach_bar_width (filtered : list SLABreachRecord)
  (record : SLABreachRecord) :
  In record filtered ->
  (forall r, In r filtered -> (0 <= breachCount r)%Q) ->
  ((exists r, In r filtered /\ (0 < breachCount r)%Q) ->
   (exists w, barWidth filtered record = Finite w /\ (0 <= w <= 100)%Q) /\
   (exists top,
       In top filtered /\
       forall r, In r filtered -> (breachCount r <= breachCount top)%Q) /\
   (forall top,
       In top filtered ->
       (forall r, In r filtered -> (breachCount r <= breachCount top)%Q) ->
       (exists w, barWidth filtered record = Finite w /\
                  (w == breachCount record / breachCount top * 100)%Q) /\
       (exists w, barWidth filtered top = Finite w /\ (w == 100)%Q))) /\
  ((forall r, In r filtered -> (breachCount r == 0)%Q) ->
   barWidth filtered record = NotANumber /\
   showsBarLabel (barWidth filtered record) = false).
Proof.
  intros Hin Hnonneg.
  destruct (maxBreaches_spec filtered record Hin)
    as (m & top0 & Hmax & Htop0 & Hm & Hle).
  unfold barWidth. rewrite Hmax. cbn [jsDiv]. split.
  - intros (r & Hr & Hpos).
    assert (Hmpos : (0 < m)%Q) by (eapply Qlt_le_trans; [exact Hpos | auto]).
    assert (Hm0 : Qeq_bool m 0 = false).
    { destruct (Qeq_bool m 0) eqn:E; [|reflexivity].
      apply Qeq_bool_iff in E. rewrite E in Hmpos.
      exfalso. exact (Qlt_irrefl _ Hmpos). }
    rewrite Hm0. cbn [jsTimes100]. split; [|split].
    + eexists. split; [reflexivity|]. split.
      * apply Qmult_le_0_compat; [|unfold Qle; simpl; lia].
        apply Qle_shift_div_l; [exact Hmpos|].
        rewrite Qmult_0_l. now apply Hnonneg.
      * setoid_replace 100%Q with (1 * 100)%Q at 2 by ring.
        apply Qmult_le_compat_r; [|unfold Qle; simpl; lia].
        apply Qle_shift_div_r; [exact Hmpos|].
        rewrite Qmult_1_l. now apply Hle.
    + exists top0. split; [exact Htop0|]. intros r' Hr'. rewrite Hm.
      now apply Hle.
    + intros top Htop Hmost.
      assert (Heq : (breachCount top == m)%Q).
      { apply Qle_antisym; [now apply Hle|].
        rewrite <- Hm. now apply Hmost. }
      split.
      * eexists. split; [reflexivity|]. now rewrite Heq.
      * eexists. split; [reflexivity|]. rewrite Heq. field.
        intros E. rewrite E in Hmpos. exact (Qlt_irrefl _ Hmpos).
  - intros Hzero.
    assert (Hm0 : Qeq_bool m 0 = true).
    { apply Qeq_bool_iff. rewrite <- Hm. now apply Hzero. }
    assert (Hx0 : Qeq_bool (breachCount record) 0 = true)
      by (apply Qeq_bool_iff; now apply Hzero).
    rewrite Hm0, Hx0. split; reflexivity.
Qed.

Lemma breach_bar_width_witness :
  In (slaRow "Payment Release" 3 4) sampleSla /\
  (forall r, In r sampleSla -> (0 <= breachCount r)%Q) /\
  (exists r, In r sampleSla /\ (0 < breachCount r)%Q) /\
  exists w, barWidth sampleSla (slaRow "Payment Release" 3 4) = Finite w /\
            (0 <= w <= 100)%Q.
Proof.
  assert (Hin : In (slaRow "Payment Release" 3 4) sampleSla)
    by (right; left; reflexivity).
  assert (Hnn : forall r, In r sampleSla -> (0 <= breachCount r)%Q).
  { intros r [<- | [<- | [<- | []]]]; unfold Qle; simpl; lia. }
  assert (Hpos : exists r, In r sampleSla /\ (0 < breachCount r)%Q).
  { eexists. split; [left; reflexivity|]. unfold Qlt; simpl; lia. }
  destruct (breach_bar_width sampleSla _ Hin Hnn) as [Hbounds _].
  destruct (Hbounds Hpos) as [Hw _].
  split; [exact Hin|]. split; [exact Hnn|]. split; [exact Hpos | exact Hw].
Defined.

(** ** The print frame *)

Ltac open_job j :=
  destruct j as [att wr li pt ct pn rn].

Lemma printStep_detached (j : PrintJob) (ev : PrintEvent) :
  attached j = false -> attached (printStep j ev) = false.
Proof.
  open_job j. cbn [attached]. intros ->.
  destruct ev, li, pt, ct; reflexivity.
Qed.

Lemma printRun_detached (evs : list PrintEvent) (j : PrintJob) :
  attached j = false -> attached (printRun evs j) = false.
Proof.
  revert j. induction evs as [|ev evs IH]; intros j Hj; [exact Hj|].
  apply IH, printStep_detached, Hj.
Qed.

(** Some timer is still to come, or the frame is gone. *)
Lemma printRun_timer_or_gone (evs : list PrintEvent) (j : PrintJob) :
  printTimer j = true \/ cleanupTimer j = true \/ attached j = false ->
  printTimer (printRun evs j) = true \/
  cleanupTimer (printRun evs j) = true \/
  attached (printRun evs j) = false.
Proof.
  revert j. induction evs as [|ev evs IH]; intros j Hj; [exact Hj|].
  apply IH. open_job j. cbn [printTimer cleanupTimer attached] in Hj.
  destruct ev, att, li, pt, ct; cbn; intuition congruence.
Qed.

(** After the print timer, the cleanup timer is to come or the frame is
    gone. *)
Lemma printRun_cleanup_due (evs : list PrintEvent) (j : PrintJob) :
  cleanupTimer j = true \/ attached j = false ->
  cleanupTimer (printRun evs j) = true \/ attached (printRun evs j) = false.
Proof.
  revert j. induction evs as [|ev evs IH]; intros j Hj; [exact Hj|].
  apply IH. open_job j. cbn [cleanupTimer attached] in Hj.
  destruct ev, att, li, pt, ct; cbn; intuition congruence.
Qed.

Lemma printRun_app (a b : list PrintEvent) (j : PrintJob) :
  printRun (a ++ b)%list j = printRun b (printRun a j).
Proof. apply fold_left_app. Qed.

Lemma printRun_counts (evs : list PrintEvent) (j : PrintJob) :
  removals j = (if attached j then 0 else 1)%nat ->
  (prints j + (if printTimer j then 1 else 0) <= 1)%nat ->
  removals (printRun evs j) = (if attached (printRun evs j) then 0 else 1)%nat
  /\ (prints (printRun evs j)
      + (if printTimer (printRun evs j) then 1 else 0) <= 1)%nat.
Proof.
  revert j. induction evs as [|ev evs IH]; intros j Hr Hp; [now split|].
  apply IH; open_job j; cbn [removals attached prints printTimer] in Hr, Hp;
    destruct ev, att, li, pt, ct; cbn in *; lia.
Qed.

(** X21.  The print frame is always released: once the print timer and,
    after it, the fallback timer have fired, the frame is off the page
    and has been removed exactly once, whether [afterprint] came before,
    between, after or never, and also when the frame gave no document. *)
Theorem print_frame_is_released (hasDocument : bool)
  (before between after : list PrintEvent) :
  let j := printRun
             (before ++ PrintTimerFires :: between ++
              CleanupTimerFires :: after)%list
             (startPrint hasDocument) in
  attached j = false /\ removals j = 1%nat.
Proof.
  cbv zeta.
  set (evs := (before ++ PrintTimerFires :: between ++
               CleanupTimerFires :: after)%list).
  assert (Hgone : attached (printRun evs (startPrint hasDocument)) = false).
  { unfold evs. rewrite printRun_app.
    set (j1 := printRun before (startPrint hasDocument)).
    assert (H1 : printTimer j1 = true \/ cleanupTimer j1 = true \/
                 attached j1 = false).
    { apply printRun_timer_or_gone. destruct hasDocument; cbn; auto. }
    change (printRun (PrintTimerFires :: between ++ CleanupTimerFires :: after)
              j1)
      with (printRun (between ++ CleanupTimerFires :: after)%list
              (printStep j1 PrintTimerFires)).
    rewrite printRun_app.
    set (j2 := printRun between (printStep j1 PrintTimerFires)).
    assert (H2 : cleanupTimer j2 = true \/ attached j2 = false).
    { apply printRun_cleanup_due. clearbody j1. open_job j1.
      cbn [printTimer cleanupTimer attached] in H1.
      destruct att, pt, ct; cbn; intuition congruence. }
    change (printRun (CleanupTimerFires :: after) j2)
      with (printRun after (printStep j2 CleanupTimerFires)).
    apply printRun_detached. clearbody j2. open_job j2.
    cbn [cleanupTimer attached] in H2.
    destruct att, ct; cbn; intuition congruence. }
  split; [exact Hgone|].
  destruct (printRun_counts evs (startPrint hasDocument)) as [Hr _].
  - destruct hasDocument; reflexivity.
  - destruct hasDocument; cbn; lia.
  - now rewrite Hr, Hgone.
Qed.

(** X22.  The print frame is never removed twice and never printed twice:
    in every run of the callbacks [removeChild] has been called once if
    the frame is off the page and not at all if it is on it, and
    [print] at most once; a frame that gave no document is removed
    before the handler returns and nothing happens to it afterwards. *)
Theorem print_frame_is_removed_once (hasDocument : bool)
  (evs : list PrintEvent) :
  let j := printRun evs (startPrint hasDocument) in
  removals j = (if attached j then 0 else 1)%nat /\
  (prints j <= 1)%nat /\
  printRun evs (startPrint false) = startPrint false /\
  attached (startPrint false) = false.
Proof.
  cbv zeta.
  destruct (printRun_counts evs (startPrint hasDocument)) as [Hr Hp].
  - destruct hasDocument; reflexivity.
  - destruct hasDocument; cbn; lia.
  - split; [exact Hr|]. split; [lia|]. split; [|reflexivity].
    clear. induction evs as [|ev evs IH]; [reflexivity|].
    cbn [printRun fold_left].
    replace (printStep (startPrint false) ev) with (startPrint false)
      by (destruct ev; reflexivity).
    exact IH.
Qed.

Example print_cancelled_dialog :
  attached (printRun [PrintTimerFires] (startPrint true)) = true /\
  attached (printRun [PrintTimerFires; CleanupTimerFires] (startPrint true))
  = false.
Proof. split; reflexivity. Qed.

Lemma reset_shows_first_page_witness :
  In (settle isoDateParse AgingResetClicked browsing)
     (renders isoDateParse AgingResetClicked browsing) /\
  filteredPaymentAging (settle isoDateParse AgingResetClicked browsing)
  = agingData (aging browsing) /\
  List.length
    (paginatedPaymentAging (settle isoDateParse AgingResetClicked browsing))
  = 10%nat.
Proof.
  assert (Hin : In (settle isoDateParse AgingResetClicked browsing)
                   (renders isoDateParse AgingResetClicked browsing))
    by (right; left; reflexivity).
  destruct (reset_shows_first_page isoDateParse browsing
              (settle isoDateParse AgingResetClicked browsing)) as [H _].
  destruct (H Hin) as [Hf Hp].
  split; [exact Hin|]. split; [exact Hf|]. rewrite Hp. reflexivity.
Defined.

Lemma aging_answer_sets_rows_witness :
  let s := settle isoDateParse (AgingFetch true sampleNow (Fulfilled None))
             browsing in
  agingData (aging s) = [] /\ paginatedPaymentAging s = [] /\
  List.length (agingData (aging browsing)) = 23%nat.
Proof.
  intros s.
  destruct (aging_answer_sets_rows isoDateParse sampleNow None browsing)
    as (_ & _ & _ & _ & Hnone).
  destruct (Hnone eq_refl) as [Hd Hp].
  split; [exact Hd|]. split; [exact Hp | reflexivity].
Defined.

(** ** Exports and pages *)

Section ExportPageFacts.

Variable Date_parse : string -> TimeValue.
Variable Number_toString : Q -> string.

(** X23.  An export is of the filtered rows, not of the visible page: a
    page request changes none of the three exports, in any render, and
    the aging export read back has a record for every filtered row. *)
Theorem exports_ignore_the_page (ev : Event) (s r : State) :
  isPageRequest ev = true -> In r (renders Date_parse ev s) ->
  handleAgingExportCSV Number_toString r
  = handleAgingExportCSV Number_toString s /\
  handleComplianceExportCSV Number_toString r
  = handleComplianceExportCSV Number_toString s /\
  handleSlaExportCSV Number_toString r
  = handleSlaExportCSV Number_toString s /\
  (filteredPaymentAging s <> [] ->
   List.length (parseCSV (handleAgingExportCSV Number_toString r))
   = S (List.length (filteredPaymentAging s))).
Proof.
  intros Hev Hin.
  assert (Hsame : filteredPaymentAging r = filteredPaymentAging s /\
                  filteredCompliance r = filteredCompliance s /\
                  filteredSLABreaches r = filteredSLABreaches s).
  { open_state s.
    destruct ev; try discriminate Hev;
      (destruct Hin as [<- | [<- | []]];
       unfold filteredPaymentAging, filteredCompliance, filteredSLABreaches;
       unfold_step; step_simpl; repeat split; reflexivity). }
  destruct Hsame as (Ha & Hc & Hs).
  unfold handleAgingExportCSV, handleComplianceExportCSV, handleSlaExportCSV.
  rewrite Ha, Hc, Hs. repeat split.
  intros Hne.
  change (toCSV (map (agingExportRow Number_toString)
                   (filteredPaymentAging s)) (Some agingHeaders))
    with (handleAgingExportCSV Number_toString s).
  rewrite aging_export_read_back by assumption.
  cbn [List.length]. now rewrite length_map.
Qed.

End ExportPageFacts.

Lemma exports_ignore_the_page_witness :
  isPageRequest (AgingPageRequested 1) = true /\
  handleAgingExportCSV (fun _ => "n")
    (settle isoDateParse (AgingPageRequested 1) browsing)
  = handleAgingExportCSV (fun _ => "n") browsing /\
  List.length
    (parseCSV
       (handleAgingExportCSV (fun _ => "n")
          (settle isoDateParse (AgingPageRequested 1) browsing)))
  = 24%nat.
Proof.
  destruct (exports_ignore_the_page isoDateParse (fun _ => "n")
              (AgingPageRequested 1) browsing
              (settle isoDateParse (AgingPageRequested 1) browsing)
              eq_refl ltac:(right; left; reflexivity))
    as (Ha & _ & _ & Hlen).
  split; [reflexivity|]. split; [exact Ha|].
  apply Hlen. vm_compute. discriminate.
Defined.
